(** * GroqModel: quota-aware rotation over a pool of API keys

    A shallow embedding of [src/app/llm/model/model.py] (class [GroqModel])
    and the properties of its key rotation, usage accounting and
    construction.

    Python values are modelled as follows:
    - [str] is a sequence of Unicode code points, [list N];
    - [int] is unbounded, [Z];
    - [list] indexing follows Python (negative indices count from the end,
      anything else out of range raises [IndexError]);
    - the [dict] [usage_tracker] is a [gmap str Z], a missing key raises
      [KeyError];
    - the provider client [ChatGroq] is an external collaborator: its
      constructor, which may raise, its token counter and its [ainvoke]
      are the members of the class [Provider];
    - a method is a function from the object's state to an outcome (a value
      or a raised exception), the state it leaves behind and the events it
      emitted (lines printed, clients built, requests sent). *)

From Stdlib Require Import ZArith NArith Ascii String.
From stdpp Require Import base list gmap.

Local Open Scope Z_scope.

(** ** Python strings *)

Module PyStr.

Abbreviation str := (list N).

(** A literal: the code points of an ASCII string. *)
Definition py (s : string) : str := N_of_ascii <$> list_ascii_of_string s.

(** [str.isspace] on one code point ([Py_UNICODE_ISSPACE]). *)
Definition isspace (c : N) : bool :=
  ((9 <=? c) && (c <=? 13) || (28 <=? c) && (c <=? 32)
   || (c =? 133) || (c =? 160) || (c =? 5760)
   || (8192 <=? c) && (c <=? 8202)
   || (c =? 8232) || (c =? 8233) || (c =? 8239) || (c =? 8287)
   || (c =? 12288))%N.

Definition comma : N := 44.

(** [s.split(sep)] for a one-character separator. *)
Fixpoint split (sep : N) (s : str) : list str :=
  match s with
  | [] => [[]]
  | c :: s' =>
      if (c =? sep)%N then [] :: split sep s'
      else match split sep s' with
           | [] => [[c]]
           | w :: ws => (c :: w) :: ws
           end
  end.

(** [sep.join(l)] for a one-character separator. *)
Fixpoint join (sep : N) (l : list str) : str :=
  match l with
  | [] => []
  | [w] => w
  | w :: ws => w ++ sep :: join sep ws
  end.

Fixpoint lstrip (s : str) : str :=
  match s with
  | [] => []
  | c :: s' => if isspace c then lstrip s' else s
  end.

Definition rstrip (s : str) : str := reverse (lstrip (reverse s)).

(** [s.strip()] *)
Definition strip (s : str) : str := rstrip (lstrip s).

(** [s.split()] : the maximal runs of non-whitespace characters.
    [cur] is the run being read, most recent character first. *)
Fixpoint split_ws_from (cur : str) (s : str) : list str :=
  match s with
  | [] => match cur with [] => [] | _ => [reverse cur] end
  | c :: s' =>
      if isspace c
      then match cur with
           | [] => split_ws_from [] s'
           | _ => reverse cur :: split_ws_from [] s'
           end
      else split_ws_from (c :: cur) s'
  end.

Definition split_ws (s : str) : list str := split_ws_from [] s.

(** [s[:n]] for [n >= 0]. *)
Definition prefix (n : nat) (s : str) : str := take n s.
Arguments prefix : simpl never.

End PyStr.
Import PyStr.

(** ** Python lists and integers *)

(** [l[i]] : [None] stands for [IndexError]. *)
Definition py_index {A} (l : list A) (i : Z) : option A :=
  let n := Z.of_nat (length l) in
  if decide (0 <= i < n) then l !! Z.to_nat i
  else if decide (- n <= i < 0) then l !! Z.to_nat (n + i)
  else None.

(** [a % b] : [None] stands for [ZeroDivisionError]; otherwise the result
    has the sign of [b], as [Z.modulo]. *)
Definition py_mod (a b : Z) : option Z :=
  if decide (b = 0) then None else Some (a mod b).

(** ** The object and its collaborators *)

Inductive message :=
| SystemMessage (content : str)
| HumanMessage (content : str).

(** The provider client: [ChatGroq(model=..., groq_api_key=...)]. *)
Record ChatGroq := mkChatGroq { model : str; groq_api_key : str }.

(** The response of the provider; only [.content] is read. *)
Record AIMessage := mkAIMessage { content : str }.

(** What the provider's library does. The constructor
    [ChatGroq(model=m, groq_api_key=k)] raises [e] when
    [init_error m k = Some e] and otherwise returns the client for [m] and
    [k]; for a client, [client.get_num_tokens_from_messages(messages)]
    counts tokens and [await client.ainvoke(messages)] answers or fails
    with some [e : E]. *)
Class Provider (E : Type) := {
  init_error : str -> str -> option E;
  get_num_tokens_from_messages : ChatGroq -> list message -> Z;
  ainvoke : ChatGroq -> list message -> E + AIMessage
}.

Record GroqModel := mkGroqModel {
  api_keys : list str;
  current_index : Z;
  model_name : str;
  context_limit : Z;
  client : ChatGroq;
  usage_tracker : gmap str Z
}.

Definition set_current_index (i : Z) (self : GroqModel) : GroqModel :=
  mkGroqModel (api_keys self) i (model_name self) (context_limit self)
              (client self) (usage_tracker self).

Definition set_client (c : ChatGroq) (self : GroqModel) : GroqModel :=
  mkGroqModel (api_keys self) (current_index self) (model_name self)
              (context_limit self) c (usage_tracker self).

Definition set_usage_tracker (u : gmap str Z) (self : GroqModel) : GroqModel :=
  mkGroqModel (api_keys self) (current_index self) (model_name self)
              (context_limit self) (client self) u.

(** What a [print] call writes. *)
Inductive line :=
| SwitchedLine (old8 new8 : str)
| QuotaLowLine (key8 : str) (remaining_quota : Z)
| TokenInfoLine (used remaining : Z).

(** What a method does that the outside can observe. *)
Inductive event :=
| Print (l : line)
| InitClient (c : ChatGroq)
| Ainvoke (c : ChatGroq) (messages : list message).

(** The exceptions of the methods; [ProviderError e] is a failure [e]
    raised inside the provider's library, by the constructor of the client
    or by a request. *)
Inductive exn {E : Type} :=
| ValueError (msg : str)
| IndexError
| KeyError (k : str)
| ZeroDivisionError
| ProviderError (e : E).
Arguments exn : clear implicits.

Inductive outcome {E A : Type} :=
| Return (a : A)
| Raise (e : exn E).
Arguments outcome : clear implicits.

(** ** Sample data

    Concrete pools, states and providers on which the statements below are
    evaluated. *)

Module Sample.

Definition keyA : str := py "keyA".
Definition keyB : str := py "keyB".
Definition onlyKey : str := py "onlyKey".
Definition llama : str := py "llama-3.1-70b-versatile".

(** Pool [keyA, keyB], cursor on [keyA], nothing used yet. *)
Definition fresh_AB : GroqModel :=
  mkGroqModel [keyA; keyB] 0 llama 8192 (mkChatGroq llama keyA)
              (<[keyB := 0]> (<[keyA := 0]> ∅)).

(** The same pool with [usage_tracker[keyA]] preset to 999000. *)
Definition low_AB : GroqModel :=
  set_usage_tracker (<[keyA := 999000]> (usage_tracker fresh_AB)) fresh_AB.

(** The pool [keyA, ""], as the setting ["keyA,"] gives it, with
    [usage_tracker[keyA]] at 999000. *)
Definition low_A_empty : GroqModel :=
  mkGroqModel [keyA; []] 0 llama 8192 (mkChatGroq llama keyA)
              (<[keyA := 999000]> (<[[] := 0]> (<[keyA := 0]> ∅))).

(** A pool of one key whose remaining quota is low. *)
Definition low_single : GroqModel :=
  mkGroqModel [onlyKey] 0 llama 8192 (mkChatGroq llama onlyKey)
              (<[onlyKey := 999000]> ∅).

Definition message_length (m : message) : Z :=
  match m with
  | SystemMessage c | HumanMessage c => Z.of_nat (length c)
  end.

(** A token counter: one token per character. *)
Definition count_chars (c : ChatGroq) (messages : list message) : Z :=
  foldr (fun m n => message_length m + n) 0 messages.

(** The constructor of the client library: it raises for an empty key
    and accepts any other. *)
Definition empty_key_error (m k : str) : option str :=
  match k with
  | [] => Some (py "GroqError: the api_key client option must be set")
  | _ => None
  end.

(** A provider that always answers with the same four words. *)
Definition answering : Provider str := {|
  init_error := empty_key_error;
  get_num_tokens_from_messages := count_chars;
  ainvoke c messages := inr (mkAIMessage (py "Gravity pulls masses together."))
|}.

(** A provider whose requests always fail. *)
Definition failing : Provider str := {|
  init_error := empty_key_error;
  get_num_tokens_from_messages := count_chars;
  ainvoke c messages := inl (py "rate limit exceeded")
|}.

End Sample.

(** ** Methods: state, exceptions and emitted events *)

Section Methods.

(** [E] is the type of the failures the provider can raise. *)
Context {E : Type}.

Definition M (A : Type) : Type :=
  GroqModel -> outcome E A * GroqModel * list event.

Definition ret {A} (a : A) : M A := fun self => (Return a, self, []).

Definition bind {A B} (m : M A) (f : A -> M B) : M B :=
  fun self =>
    match m self with
    | (Return a, self', t) =>
        let '(r, self'', t') := f a self' in (r, self'', t ++ t')
    | (Raise e, self', t) => (Raise e, self', t)
    end.

Definition raise {A} (e : exn E) : M A := fun self => (Raise e, self, []).
Definition emit (ev : event) : M unit := fun self => (Return tt, self, [ev]).
Definition read {A} (f : GroqModel -> A) : M A := fun self => (Return (f self), self, []).
Definition write (f : GroqModel -> GroqModel) : M unit :=
  fun self => (Return tt, f self, []).

(** Lift a partial primitive, raising [e] where it is undefined. *)
Definition orelse {A} (o : option A) (e : exn E) : M A :=
  match o with Some a => ret a | None => raise e end.

Notation "x <- m ;; k" := (bind m (fun x => k))
  (at level 100, m at next level, right associativity).
Notation "m ;;; k" := (bind m (fun _ => k))
  (at level 100, right associativity).

(** [self._init_client(key)] *)
Definition _init_client `{P : Provider E} (key : str) : M ChatGroq :=
  m <- read model_name ;;
  match init_error m key with
  | Some e => raise (ProviderError e)
  | None =>
      let c := mkChatGroq m key in
      emit (InitClient c) ;;;
      ret c
  end.

(** [self._switch_key()] *)
Definition _switch_key `{P : Provider E} : M unit :=
  keys <- read api_keys ;;
  i <- read current_index ;;
  old_key <- orelse (py_index keys i) IndexError ;;
  i' <- orelse (py_mod (i + 1) (Z.of_nat (length keys))) ZeroDivisionError ;;
  write (set_current_index i') ;;;
  new_key <- orelse (py_index keys i') IndexError ;;
  c <- _init_client new_key ;;
  write (set_client c) ;;;
  emit (Print (SwitchedLine (prefix 8 old_key) (prefix 8 new_key))).

(** [self.get_token_count(messages)] *)
Definition get_token_count `{P : Provider E} (messages : list message) : M Z :=
  c <- read client ;;
  ret (get_num_tokens_from_messages c messages).

(** [self.get_remaining_tokens(messages)] *)
Definition get_remaining_tokens `{P : Provider E} (messages : list message) : M Z :=
  used <- get_token_count messages ;;
  limit <- read context_limit ;;
  ret (limit - used).

(** [await self._check_and_switch_key()] *)
Definition _check_and_switch_key `{P : Provider E} : M unit :=
  keys <- read api_keys ;;
  i <- read current_index ;;
  current_key <- orelse (py_index keys i) IndexError ;;
  tracker <- read usage_tracker ;;
  used_tokens <- orelse (tracker !! current_key) (KeyError current_key) ;;
  let remaining_quota := 1000000 - used_tokens in
  if decide (remaining_quota < 3000) then
    emit (Print (QuotaLowLine (prefix 8 current_key) remaining_quota)) ;;;
    _switch_key
  else ret tt.

(** The message list [chat] builds: [if system_prompt:] is false for
    [None] and for the empty string. *)
Definition build_messages (prompt : str) (system_prompt : option str) : list message :=
  match system_prompt with
  | Some (c :: sp) => [SystemMessage (c :: sp); HumanMessage prompt]
  | Some [] | None => [HumanMessage prompt]
  end.

(** [len(text.split())] *)
Definition word_count (text : str) : Z := Z.of_nat (length (split_ws text)).

(** [await self.chat(prompt, system_prompt)] *)
Definition chat `{P : Provider E} (prompt : str) (system_prompt : option str) : M str :=
  let messages := build_messages prompt system_prompt in
  used <- get_token_count messages ;;
  remaining <- get_remaining_tokens messages ;;
  emit (Print (TokenInfoLine used remaining)) ;;;
  _check_and_switch_key ;;;
  c <- read client ;;
  emit (Ainvoke c messages) ;;;
  match ainvoke c messages with
  | inl e => raise (ProviderError e)
  | inr response =>
      keys <- read api_keys ;;
      i <- read current_index ;;
      current_key <- orelse (py_index keys i) IndexError ;;
      tracker <- read usage_tracker ;;
      old <- orelse (tracker !! current_key) (KeyError current_key) ;;
      write (set_usage_tracker
               (<[current_key := old + (used + word_count (content response))]> tracker)) ;;;
      ret (content response)
  end.

(** The dict comprehension [{key: 0 for key in keys}]. *)
Definition zero_usage (keys : list str) : gmap str Z :=
  foldl (fun d key => <[key := 0]> d) ∅ keys.

(** [GroqModel()] with [os.getenv("GROQ_API_KEYS")] equal to [raw_keys]
    ([None] when the variable is not set). *)
Definition __init__ `{P : Provider E} (raw_keys : option str) :
  outcome E GroqModel * list event :=
  match raw_keys with
  | None | Some [] =>
      (Raise (ValueError (py "GROQ_API_KEYS not found in environment variables.")), [])
  | Some raw =>
      let keys := strip <$> split comma raw in
      let index := 0 in
      let name := py "llama-3.1-70b-versatile" in
      let limit := 8192 in
      match py_index keys index with
      | None => (Raise IndexError, [])
      | Some key =>
          match init_error name key with
          | Some e => (Raise (ProviderError e), [])
          | None =>
              let c := mkChatGroq name key in
              (Return (mkGroqModel keys index name limit c (zero_usage keys)),
               [InitClient c])
          end
      end
  end.

(** [n] calls of the same method in a row, stopping at the first exception. *)
Fixpoint times (n : nat) (m : M unit) : M unit :=
  match n with
  | O => ret tt
  | S n' => m ;;; times n' m
  end.

(** ** Observations and invariants *)

Definition outcome_of {A} (x : outcome E A * GroqModel * list event) : outcome E A := x.1.1.
Definition state_of {A} (x : outcome E A * GroqModel * list event) : GroqModel := x.1.2.
Definition trace_of {A} (x : outcome E A * GroqModel * list event) : list event := x.2.

(** The state of the object after [k] calls of the same method, each
    started where the previous one left it, whether it returned or raised. *)
Fixpoint after {A} (k : nat) (m : M A) (self : GroqModel) : GroqModel :=
  match k with
  | O => self
  | S k' => after k' m (state_of (m self))
  end.

Definition is_InitClient (ev : event) : bool :=
  match ev with InitClient _ => true | _ => false end.

Definition is_Ainvoke (ev : event) : bool :=
  match ev with Ainvoke _ _ => true | _ => false end.

(** The key under the cursor, [self.api_keys[self.current_index]]. *)
Definition current_key (self : GroqModel) : option str :=
  py_index (api_keys self) (current_index self).

(** The cursor designates an element of the pool. *)
Definition index_ok (self : GroqModel) : Prop :=
  0 <= current_index self < Z.of_nat (length (api_keys self)).

(** Every key of the pool has a usage counter. *)
Definition tracked (self : GroqModel) : Prop :=
  Forall (fun k => is_Some (usage_tracker self !! k)) (api_keys self).

(** The client is the one built for the key under the cursor. *)
Definition client_bound (self : GroqModel) : Prop :=
  mkChatGroq (model_name self) <$> current_key self = Some (client self).

(** The remaining soft quota of every key of the pool is below 3000. *)
Definition all_low (self : GroqModel) : Prop :=
  Forall (fun k => exists u, usage_tracker self !! k = Some u /\ 1000000 - u < 3000)
         (api_keys self).

(** The constructor of the client accepts every key of the pool. *)
Definition accepts_pool `{P : Provider E} (self : GroqModel) : Prop :=
  Forall (fun k => init_error (model_name self) k = None) (api_keys self).

(** The key at position [j] of the pool has a counter and its remaining
    quota is below 3000, resp. is at least 3000. *)
Definition low_at (self : GroqModel) (j : Z) : Prop :=
  exists k u, py_index (api_keys self) j = Some k
              /\ usage_tracker self !! k = Some u /\ 1000000 - u < 3000.

Definition ok_at (self : GroqModel) (j : Z) : Prop :=
  exists k u, py_index (api_keys self) j = Some k
              /\ usage_tracker self !! k = Some u /\ ~ 1000000 - u < 3000.

(** The pieces of keys a printed line shows. *)
Definition line_fragments (l : line) : list str :=
  match l with
  | SwitchedLine old8 new8 => [old8; new8]
  | QuotaLowLine key8 _ => [key8]
  | TokenInfoLine _ _ => []
  end.

(** The pieces of keys that the lines printed in a trace show. *)
Definition printed_fragments (t : list event) : list str :=
  t ≫= (fun ev => match ev with Print l => line_fragments l | _ => [] end).

(** The usage counters are exactly those of the keys of the pool. *)
Definition exact_counters (self : GroqModel) : Prop :=
  forall k, is_Some (usage_tracker self !! k) <-> k ∈ api_keys self.

(** A method keeps the pool: started with the cursor inside the pool, it
    leaves the cursor inside the pool and the pool as it was, whether it
    returns or raises. *)
Definition keeps_pool {A} (m : M A) : Prop :=
  forall self, index_ok self ->
    index_ok (state_of (m self)) /\ api_keys (state_of (m self)) = api_keys self.

(** A method sends no request to the provider. *)
Definition silent {A} (m : M A) : Prop :=
  forall self, filter (fun ev => is_Ainvoke ev = true) (trace_of (m self)) = [].

(** A method keeps a component [f] of the state: it leaves it as it was,
    whether it returns or raises. *)
Definition keeps {A X} (f : GroqModel -> X) (m : M A) : Prop :=
  forall self, f (state_of (m self)) = f self.

(** What holds of the object at all times: the cursor is inside the pool,
    every key has a counter, the client was built, with the model name,
    for a key of the pool, and the two constants have their values. *)
Definition wf (self : GroqModel) : Prop :=
  index_ok self /\ tracked self
  /\ (exists k, k ∈ api_keys self /\ client self = mkChatGroq (model_name self) k)
  /\ context_limit self = 8192
  /\ model_name self = py "llama-3.1-70b-versatile".

(** The states the object can be in: the one construction returns, and
    the ones its methods leave behind, whether they return or raise. The
    provider may behave differently at every call. *)
Inductive reachable : GroqModel -> Prop :=
| reach_init (P : Provider E) raw_keys self :
    __init__ raw_keys = (Return self, [InitClient (client self)]) ->
    reachable self
| reach_chat (P : Provider E) prompt system_prompt self :
    reachable self -> reachable (state_of (chat prompt system_prompt self))
| reach_check (P : Provider E) self :
    reachable self -> reachable (state_of (_check_and_switch_key self))
| reach_switch (P : Provider E) self :
    reachable self -> reachable (state_of (_switch_key self))
| reach_count (P : Provider E) messages self :
    reachable self -> reachable (state_of (get_token_count messages self))
| reach_remaining (P : Provider E) messages self :
    reachable self -> reachable (state_of (get_remaining_tokens messages self)).

(** ** Strings: what [split] and [strip] compute *)

Lemma split_not_nil sep s : split sep s <> [].
Proof. destruct s as [|c s]; simpl; [done|]. by destruct (c =? sep)%N, (split sep s). Qed.

Lemma join_cons sep w ws :
  ws <> [] -> join sep (w :: ws) = w ++ sep :: join sep ws.
Proof. by destruct ws. Qed.

(** Joining the pieces with the separator gives the string back. *)
Lemma join_split sep s : join sep (split sep s) = s.
Proof.
  induction s as [|c s IH]; [done|]. simpl.
  destruct (N.eqb_spec c sep) as [->|Hne].
  - rewrite join_cons by apply split_not_nil. simpl. by rewrite IH.
  - pose proof (split_not_nil sep s) as Hnil.
    destruct (split sep s) as [|w ws]; [done|].
    destruct ws as [|w' ws]; simpl in *; by rewrite <- IH.
Qed.

(** No piece contains the separator. *)
Lemma split_no_sep sep s : Forall (fun w => sep ∉ w) (split sep s).
Proof.
  induction s as [|c s IH]; simpl.
  - repeat constructor. by intros ?%elem_of_nil.
  - destruct (N.eqb_spec c sep) as [->|Hne].
    + constructor; [by intros ?%elem_of_nil | done].
    + destruct (split sep s) as [|w ws]; simpl.
      * repeat constructor. intros ?%list_elem_of_singleton. congruence.
      * inversion IH; subst. constructor; [|done].
        intros [?|?]%elem_of_cons; [congruence | done].
Qed.

(** One more piece than there are separators. *)
Lemma length_split sep s :
  length (split sep s) = S (length (filter (fun c => c = sep) s)).
Proof.
  induction s as [|c s IH]; [done|]. simpl.
  rewrite filter_cons. destruct (N.eqb_spec c sep) as [->|Hne].
  - rewrite decide_True by done. simpl. by rewrite IH.
  - rewrite decide_False by done. pose proof (split_not_nil sep s).
    destruct (split sep s); [done|]. simpl in *. done.
Qed.

Lemma lstrip_spec s :
  exists l, s = l ++ lstrip s /\ Forall (fun c => isspace c = true) l
            /\ (forall c, head (lstrip s) = Some c -> isspace c = false).
Proof.
  induction s as [|c s (l & Hs & Hl & Hh)]; simpl.
  - exists []. split_and!; [done | constructor | done].
  - destruct (isspace c) eqn:Hc.
    + exists (c :: l). split_and!; [by rewrite Hs at 1 | by constructor | done].
    + exists []. split_and!; [done | constructor |]. simpl. by intros ? [= <-].
Qed.

(** [strip] removes a run of whitespace at each end, and what is left
    neither starts nor ends with whitespace. *)
Lemma strip_spec s :
  exists l r, s = l ++ strip s ++ r
    /\ Forall (fun c => isspace c = true) l
    /\ Forall (fun c => isspace c = true) r
    /\ (forall c, head (strip s) = Some c -> isspace c = false)
    /\ (forall c, last (strip s) = Some c -> isspace c = false).
Proof.
  destruct (lstrip_spec s) as (l & Hs & Hl & Hh).
  destruct (lstrip_spec (reverse (lstrip s))) as (r & Hr & Hrs & Hrh).
  exists l, (reverse r). unfold strip, rstrip.
  assert (lstrip s = reverse (lstrip (reverse (lstrip s))) ++ reverse r) as Hmid.
  { rewrite <- reverse_app, <- Hr. by rewrite reverse_involutive. }
  split_and!.
  - by rewrite <- Hmid.
  - done.
  - by apply Forall_reverse.
  - intros c Hc. destruct (reverse (lstrip (reverse (lstrip s)))) as [|c' w] eqn:Hw;
      [done|]. simpl in Hc. injection Hc as ->.
    apply Hh. by rewrite Hmid.
  - intros c Hc. rewrite last_reverse in Hc. by apply Hrh.
Qed.

(** The three string operations on concrete inputs. *)
Example split_keeps_empty_pieces :
  split comma (py "a,,b,") = [py "a"; []; py "b"; []].
Proof. reflexivity. Qed.

Example strip_both_ends :
  strip (9 :: 32 :: py "gsk a" ++ [32; 10; 160])%N = py "gsk a".
Proof. reflexivity. Qed.

Example split_ws_counts_words :
  split_ws (32 :: py "Gravity  pulls" ++ 9 :: py "masses together. ")%N
  = [py "Gravity"; py "pulls"; py "masses"; py "together."].
Proof. reflexivity. Qed.

(** ** Lists: indexing *)

Lemma py_index_in_range {A} (l : list A) (i : Z) :
  0 <= i < Z.of_nat (length l) -> py_index l i = l !! Z.to_nat i.
Proof. intros H. unfold py_index. by rewrite decide_True. Qed.

Lemma py_index_is_Some {A} (l : list A) (i : Z) :
  0 <= i < Z.of_nat (length l) -> is_Some (py_index l i).
Proof.
  intros H. rewrite py_index_in_range by done.
  apply lookup_lt_is_Some. lia.
Qed.

Lemma py_index_Some {A} (l : list A) (i : Z) (x : A) :
  py_index l i = Some x ->
  - Z.of_nat (length l) <= i < Z.of_nat (length l) /\ x ∈ l.
Proof.
  unfold py_index. intros H. repeat case_decide; try done.
  - split; [lia|]. by eapply list_elem_of_lookup_2.
  - split; [lia|]. by eapply list_elem_of_lookup_2.
Qed.

Lemma next_index_in_range (n i : Z) : 0 < n -> 0 <= (i + 1) mod n < n.
Proof. intros. apply Z.mod_pos_bound. lia. Qed.

(** ** Running the methods *)

Ltac run :=
  unfold bind, read, write, emit, orelse, ret, raise; simpl.

Section WithProvider.

Context {P : Provider E}.


Lemma _init_client_run key self :
  _init_client key self
  = match init_error (model_name self) key with
    | Some e => (Raise (ProviderError e), self, [])
    | None => (Return (mkChatGroq (model_name self) key), self,
               [InitClient (mkChatGroq (model_name self) key)])
    end.
Proof. unfold _init_client. run. by destruct (init_error _ _). Qed.

(** [_switch_key] moves the cursor to the next position, cyclically, then
    asks for a client for the key found there: when the constructor
    raises, so does the rotation, with the cursor moved and the client as
    it was. *)
Lemma _switch_key_run self old_key :
  current_key self = Some old_key ->
  let i' := (current_index self + 1) mod Z.of_nat (length (api_keys self)) in
  exists new_key,
    py_index (api_keys self) i' = Some new_key /\
    _switch_key self
    = match init_error (model_name self) new_key with
      | Some e => (Raise (ProviderError e), set_current_index i' self, [])
      | None =>
          (Return tt,
           set_client (mkChatGroq (model_name self) new_key)
             (set_current_index i' self),
           [InitClient (mkChatGroq (model_name self) new_key);
            Print (SwitchedLine (prefix 8 old_key) (prefix 8 new_key))])
      end.
Proof.
  intros Hold i'. unfold current_key in Hold.
  destruct (py_index_Some _ _ _ Hold) as [Hb _].
  assert (0 < Z.of_nat (length (api_keys self))) as Hn by lia.
  destruct (py_index_is_Some (api_keys self) i') as [new_key Hnew];
    [by apply next_index_in_range|].
  exists new_key. split; [done|].
  unfold _switch_key, _init_client. run. rewrite Hold. simpl.
  unfold py_mod. rewrite decide_False by lia. simpl.
  fold i'. rewrite Hnew. simpl. by destruct (init_error _ _).
Qed.

(** [_check_and_switch_key] when the quota of the current key is not low. *)
Lemma _check_and_switch_key_ok self key used :
  current_key self = Some key ->
  usage_tracker self !! key = Some used ->
  ~ 1000000 - used < 3000 ->
  _check_and_switch_key self = (Return tt, self, []).
Proof.
  intros Hkey Hused Hq. unfold current_key in Hkey.
  unfold _check_and_switch_key. run. rewrite Hkey. simpl. rewrite Hused. simpl.
  by rewrite decide_False.
Qed.

(** [_check_and_switch_key] when the quota of the current key is low. *)
Lemma _check_and_switch_key_low self key used :
  current_key self = Some key ->
  usage_tracker self !! key = Some used ->
  1000000 - used < 3000 ->
  let i' := (current_index self + 1) mod Z.of_nat (length (api_keys self)) in
  exists new_key,
    py_index (api_keys self) i' = Some new_key /\
    _check_and_switch_key self
    = match init_error (model_name self) new_key with
      | Some e =>
          (Raise (ProviderError e), set_current_index i' self,
           [Print (QuotaLowLine (prefix 8 key) (1000000 - used))])
      | None =>
          (Return tt,
           set_client (mkChatGroq (model_name self) new_key)
             (set_current_index i' self),
           [Print (QuotaLowLine (prefix 8 key) (1000000 - used));
            InitClient (mkChatGroq (model_name self) new_key);
            Print (SwitchedLine (prefix 8 key) (prefix 8 new_key))])
      end.
Proof.
  intros Hkey Hused Hq i'.
  destruct (_switch_key_run self key Hkey) as (new_key & Hnew & Hrun).
  exists new_key. split; [done|]. unfold current_key in Hkey.
  unfold _check_and_switch_key. run. rewrite Hkey. simpl. rewrite Hused. simpl.
  rewrite decide_True by done. run. rewrite Hrun. fold i'.
  by destruct (init_error _ _).
Qed.

(** In a state that satisfies the invariants the key under the cursor
    exists and has a counter. *)
Lemma current_key_tracked self :
  index_ok self -> tracked self ->
  exists key used, current_key self = Some key /\ usage_tracker self !! key = Some used.
Proof.
  intros Hi Ht. destruct (py_index_is_Some (api_keys self) (current_index self) Hi)
    as [key Hkey].
  destruct (py_index_Some _ _ _ Hkey) as [_ Hin].
  unfold tracked in Ht. rewrite Forall_forall in Ht.
  destruct (Ht key Hin) as [used Hused]. by exists key, used.
Qed.

(** [chat] after its rotation check: one request to the provider, through
    the client the check left in place, then the usage update. *)
Lemma chat_unfold prompt system_prompt self mid t :
  _check_and_switch_key self = (Return tt, mid, t) ->
  let messages := build_messages prompt system_prompt in
  let used := get_num_tokens_from_messages (client self) messages in
  let sent := Print (TokenInfoLine used (context_limit self - used))
              :: t ++ [Ainvoke (client mid) messages] in
  chat prompt system_prompt self =
  match ainvoke (client mid) messages with
  | inl e => (Raise (ProviderError e), mid, sent)
  | inr response =>
      match current_key mid with
      | None => (Raise IndexError, mid, sent)
      | Some k =>
          match usage_tracker mid !! k with
          | None => (Raise (KeyError k), mid, sent)
          | Some old =>
              (Return (content response),
               set_usage_tracker
                 (<[k := old + (used + word_count (content response))]>
                    (usage_tracker mid)) mid,
               sent)
          end
      end
  end.
Proof.
  intros Hcheck messages used sent.
  unfold chat, get_remaining_tokens, get_token_count. run.
  fold messages. fold used. rewrite Hcheck. simpl.
  unfold current_key, sent.
  destruct (ainvoke (client mid) messages) as [e|response]; simpl.
  - by rewrite ?app_nil_r.
  - destruct (py_index (api_keys mid) (current_index mid)) as [k|]; simpl;
      [|by rewrite ?app_nil_r].
    destruct (usage_tracker mid !! k) as [old|]; simpl; by rewrite ?app_nil_r.
Qed.

(** ** The pool invariant, method by method *)

Lemma keeps_pool_ret {A} (a : A) : keeps_pool (ret a).
Proof. by intros self H. Qed.

Lemma keeps_pool_raise {A} (e : exn E) : keeps_pool (@raise A e).
Proof. by intros self H. Qed.

Lemma keeps_pool_emit ev : keeps_pool (emit ev).
Proof. by intros self H. Qed.

Lemma keeps_pool_read {A} (f : GroqModel -> A) : keeps_pool (read f).
Proof. by intros self H. Qed.

Lemma keeps_pool_orelse {A} (o : option A) e : keeps_pool (orelse o e).
Proof. by destruct o; intros self H. Qed.

Lemma keeps_pool_set_client c : keeps_pool (write (set_client c)).
Proof. by intros self H. Qed.

Lemma keeps_pool_set_usage_tracker u : keeps_pool (write (set_usage_tracker u)).
Proof. by intros self H. Qed.

Lemma keeps_pool_bind {A B} (m : M A) (f : A -> M B) :
  keeps_pool m -> (forall a, keeps_pool (f a)) -> keeps_pool (bind m f).
Proof.
  intros Hm Hf self H. specialize (Hm self H). unfold bind, state_of in *.
  destruct (m self) as [[[a|e] self'] t]; simpl in *; [|done].
  destruct Hm as [Hi Hk]. specialize (Hf a self' Hi). unfold state_of in Hf.
  destruct (f a self') as [[r self''] t']; simpl in *.
  destruct Hf as [Hi' Hk']. split; [done | congruence].
Qed.

Create HintDb pool.
#[local] Hint Resolve keeps_pool_ret keeps_pool_raise keeps_pool_emit keeps_pool_read
  keeps_pool_orelse keeps_pool_set_client keeps_pool_set_usage_tracker : pool.

Ltac keeps_pool_step :=
  first [ solve [auto with pool] | apply keeps_pool_bind; [|intros ?] ].

Lemma keeps_pool__init_client key : keeps_pool (_init_client key).
Proof. unfold _init_client. repeat first [ keeps_pool_step | case_match ]. Qed.

(** The one write to the cursor: [(i + 1) % len(keys)] is inside the pool
    whenever the pool has an element. *)
Lemma keeps_pool__switch_key : keeps_pool _switch_key.
Proof.
  intros self H.
  destruct (py_index_is_Some (api_keys self) (current_index self) H) as [old Hold].
  destruct (_switch_key_run self old Hold) as (new_key & _ & ->).
  unfold state_of, index_ok in *.
  destruct (init_error _ _); simpl; (split; [|done]);
    apply next_index_in_range; lia.
Qed.

Lemma keeps_pool_get_token_count messages : keeps_pool (get_token_count messages).
Proof. unfold get_token_count. repeat keeps_pool_step. Qed.

Lemma keeps_pool_get_remaining_tokens messages :
  keeps_pool (get_remaining_tokens messages).
Proof.
  unfold get_remaining_tokens. pose proof keeps_pool_get_token_count.
  repeat keeps_pool_step.
Qed.

Lemma keeps_pool__check_and_switch_key : keeps_pool _check_and_switch_key.
Proof.
  unfold _check_and_switch_key. pose proof keeps_pool__switch_key.
  repeat first [ keeps_pool_step | case_decide ].
Qed.

Lemma keeps_pool_chat prompt system_prompt : keeps_pool (chat prompt system_prompt).
Proof.
  unfold chat. pose proof keeps_pool_get_token_count.
  pose proof keeps_pool_get_remaining_tokens.
  pose proof keeps_pool__check_and_switch_key.
  repeat first [ keeps_pool_step | case_match ].
Qed.

Lemma keeps_pool_times n (m : M unit) : keeps_pool m -> keeps_pool (times n m).
Proof. intros Hm. induction n; simpl; repeat keeps_pool_step. Qed.

(** ** Construction *)

Lemma lookup_foldl_zero (keys : list str) (d : gmap str Z) (k : str) :
  foldl (fun d key => <[key := 0]> d) d keys !! k
  = if decide (k ∈ keys) then Some 0 else d !! k.
Proof.
  revert d. induction keys as [|key keys IH]; intros d; cbn [foldl].
  - rewrite decide_False; [done | apply not_elem_of_nil].
  - rewrite IH. destruct (decide (k ∈ keys)) as [Hin|Hin].
    + rewrite decide_True; [done | by right].
    + destruct (decide (k = key)) as [->|Hne].
      * rewrite decide_True by left. apply lookup_insert_eq.
      * rewrite decide_False; [by apply lookup_insert_ne|].
        intros [?|?]%elem_of_cons; done.
Qed.

(** The comprehension gives every key of the pool the counter 0 and has no
    other entry. *)
Lemma lookup_zero_usage (keys : list str) (k : str) :
  zero_usage keys !! k = if decide (k ∈ keys) then Some 0 else None.
Proof. unfold zero_usage. by rewrite lookup_foldl_zero, lookup_empty. Qed.

(** What construction does with a non-empty setting: it parses the pool
    and asks for a client for the first key. *)
Lemma init_run (raw : str) :
  raw <> [] ->
  let keys := strip <$> split comma raw in
  let name := py "llama-3.1-70b-versatile" in
  exists first,
    keys !! 0%nat = Some first /\
    __init__ (Some raw)
    = match init_error name first with
      | Some e => (Raise (ProviderError e), [])
      | None =>
          (Return (mkGroqModel keys 0 name 8192 (mkChatGroq name first)
                     (zero_usage keys)),
           [InitClient (mkChatGroq name first)])
      end.
Proof.
  intros Hraw keys name.
  pose proof (split_not_nil comma raw) as Hnil.
  destruct (split comma raw) as [|w ws] eqn:Hsplit; [done|].
  exists (strip w). split; [by subst keys|].
  destruct raw as [|c raw]; [done|]. unfold __init__. fold name.
  rewrite Hsplit. reflexivity.
Qed.

Lemma init_raises (raw_keys : option str) :
  raw_keys = None \/ raw_keys = Some [] ->
  __init__ raw_keys
  = (Raise (ValueError (py "GROQ_API_KEYS not found in environment variables.")), []).
Proof. by intros [-> | ->]. Qed.

(** ** What the methods never write *)

Lemma keeps_ret {A X} (f : GroqModel -> X) (a : A) : keeps f (ret a).
Proof. by intros self. Qed.

Lemma keeps_raise {A X} (f : GroqModel -> X) (e : exn E) : keeps f (@raise A e).
Proof. by intros self. Qed.

Lemma keeps_emit {X} (f : GroqModel -> X) ev : keeps f (emit ev).
Proof. by intros self. Qed.

Lemma keeps_read {A X} (f : GroqModel -> X) (g : GroqModel -> A) : keeps f (read g).
Proof. by intros self. Qed.

Lemma keeps_orelse {A X} (f : GroqModel -> X) (o : option A) e : keeps f (orelse o e).
Proof. by destruct o; intros self. Qed.

Lemma keeps_write {X} (f : GroqModel -> X) (g : GroqModel -> GroqModel) :
  (forall self, f (g self) = f self) -> keeps f (write g).
Proof. intros Hg self. apply Hg. Qed.

Lemma keeps_bind {A B X} (f : GroqModel -> X) (m : M A) (k : A -> M B) :
  keeps f m -> (forall a, keeps f (k a)) -> keeps f (bind m k).
Proof.
  intros Hm Hk self. specialize (Hm self). unfold bind, state_of in *.
  destruct (m self) as [[[a|e] self'] t]; simpl in *; [|done].
  specialize (Hk a self'). unfold state_of in Hk.
  destruct (k a self') as [[r self''] t']; simpl in *. congruence.
Qed.

Create HintDb keeps.
#[local] Hint Resolve keeps_ret keeps_raise keeps_emit keeps_read keeps_orelse : keeps.
#[local] Hint Extern 1 (keeps _ (write _)) =>
  (apply keeps_write; intros ?; reflexivity) : keeps.

Ltac keeps_step :=
  first [ solve [auto with keeps]
        | apply keeps_bind; [|intros ?]
        | case_decide
        | case_match ].

(** The pool, the model name and the context limit are written by no method. *)
Lemma keeps_constants {X} (f : GroqModel -> X) prompt system_prompt messages :
  (forall i self, f (set_current_index i self) = f self) ->
  (forall c self, f (set_client c self) = f self) ->
  (forall u self, f (set_usage_tracker u self) = f self) ->
  keeps f _switch_key /\ keeps f _check_and_switch_key
  /\ keeps f (get_token_count messages) /\ keeps f (get_remaining_tokens messages)
  /\ keeps f (chat prompt system_prompt).
Proof.
  intros Hi Hc Hu.
  assert (forall i, keeps f (write (set_current_index i))) by (intros i self; apply Hi).
  assert (forall c, keeps f (write (set_client c))) by (intros c self; apply Hc).
  assert (forall u, keeps f (write (set_usage_tracker u))) by (intros u self; apply Hu).
  assert (keeps f _switch_key) by (unfold _switch_key, _init_client; repeat keeps_step).
  assert (keeps f _check_and_switch_key)
    by (unfold _check_and_switch_key; repeat keeps_step).
  assert (forall ms, keeps f (get_token_count ms))
    by (intros ms; unfold get_token_count; repeat keeps_step).
  assert (forall ms, keeps f (get_remaining_tokens ms))
    by (intros ms; unfold get_remaining_tokens; repeat keeps_step).
  split_and!; try done. unfold chat. repeat keeps_step.
Qed.

(** The rotation check and the rotation never write a usage counter. *)
Lemma keeps_usage_tracker__check_and_switch_key :
  keeps usage_tracker _check_and_switch_key.
Proof. unfold _check_and_switch_key, _switch_key, _init_client. repeat keeps_step. Qed.

(** [chat] raises what its rotation check raises, before any request. *)
Lemma chat_check_raises prompt system_prompt self e mid t :
  _check_and_switch_key self = (Raise e, mid, t) ->
  let messages := build_messages prompt system_prompt in
  let used := get_num_tokens_from_messages (client self) messages in
  chat prompt system_prompt self
  = (Raise e, mid, Print (TokenInfoLine used (context_limit self - used)) :: t).
Proof.
  intros Hcheck messages used.
  unfold chat, get_remaining_tokens, get_token_count. run.
  fold messages. fold used. by rewrite Hcheck.
Qed.

(** The state [chat] leaves: the one its rotation check left, or that one
    with the counter of one existing key raised. *)
Lemma chat_state_cases prompt system_prompt self :
  let mid := state_of (_check_and_switch_key self) in
  let used := get_num_tokens_from_messages (client self)
                (build_messages prompt system_prompt) in
  state_of (chat prompt system_prompt self) = mid
  \/ exists k old response,
       usage_tracker mid !! k = Some old
       /\ state_of (chat prompt system_prompt self)
          = set_usage_tracker
              (<[k := old + (used + word_count (content response))]>
                 (usage_tracker mid)) mid.
Proof.
  intros mid used. subst mid.
  destruct (_check_and_switch_key self) as [[[[]|e] mid] t] eqn:Hcheck.
  - rewrite (chat_unfold prompt system_prompt self mid t Hcheck). fold used.
    unfold state_of. cbn [fst snd].
    destruct (ainvoke _ _) as [e|response]; [by left|].
    destruct (current_key mid) as [k|]; [|by left].
    destruct (usage_tracker mid !! k) as [old|] eqn:Hold; [|by left].
    right. by exists k, old, response.
  - rewrite (chat_check_raises prompt system_prompt self e mid t Hcheck). by left.
Qed.

(** ** What the rotation never does *)

Lemma silent_ret {A} (a : A) : silent (ret a).
Proof. by intros self. Qed.

Lemma silent_raise {A} (e : exn E) : silent (@raise A e).
Proof. by intros self. Qed.

Lemma silent_read {A} (g : GroqModel -> A) : silent (read g).
Proof. by intros self. Qed.

Lemma silent_write (g : GroqModel -> GroqModel) : silent (write g).
Proof. by intros self. Qed.

Lemma silent_orelse {A} (o : option A) e : silent (orelse o e).
Proof. by destruct o; intros self. Qed.

Lemma silent_emit ev : is_Ainvoke ev = false -> silent (emit ev).
Proof.
  intros Hev self. unfold trace_of, emit. cbn [fst snd].
  rewrite filter_cons_False; [done|]. by rewrite Hev.
Qed.

Lemma silent_bind {A B} (m : M A) (k : A -> M B) :
  silent m -> (forall a, silent (k a)) -> silent (bind m k).
Proof.
  intros Hm Hk self. specialize (Hm self). unfold bind, trace_of in *.
  destruct (m self) as [[[a|e] self'] t]; simpl in *; [|done].
  specialize (Hk a self'). unfold trace_of in Hk.
  destruct (k a self') as [[r self''] t']; simpl in *.
  by rewrite filter_app, Hm, Hk.
Qed.

Create HintDb silent.
#[local] Hint Resolve silent_ret silent_raise silent_read silent_write silent_orelse
  : silent.
#[local] Hint Extern 1 (silent (emit _)) => (apply silent_emit; reflexivity) : silent.

Ltac silent_step :=
  first [ solve [auto with silent]
        | apply silent_bind; [|intros ?]
        | case_decide
        | case_match ].

(** Neither the rotation nor the rotation check sends a request. *)
Lemma silent__switch_key : silent _switch_key.
Proof. unfold _switch_key, _init_client. repeat silent_step. Qed.

Lemma silent__check_and_switch_key : silent _check_and_switch_key.
Proof.
  unfold _check_and_switch_key. pose proof silent__switch_key.
  repeat silent_step.
Qed.

(** The rotation never writes a usage counter. *)
Lemma keeps_usage_tracker__switch_key : keeps usage_tracker _switch_key.
Proof. unfold _switch_key, _init_client. repeat keeps_step. Qed.

(** ** The invariants, method by method *)

Lemma wf_built (keys : list str) (first : str) :
  keys !! 0%nat = Some first ->
  wf (mkGroqModel keys 0 (py "llama-3.1-70b-versatile") 8192
        (mkChatGroq (py "llama-3.1-70b-versatile") first) (zero_usage keys)).
Proof.
  intros Hfirst. pose proof (lookup_lt_Some _ _ _ Hfirst) as Hlen.
  split_and!; [| | |reflexivity|reflexivity].
  - unfold index_ok. cbn [api_keys current_index]. lia.
  - unfold tracked. cbn [api_keys usage_tracker].
    apply Forall_forall. intros k Hk. rewrite lookup_zero_usage.
    by rewrite decide_True.
  - exists first. split; [|done]. cbn [api_keys].
    by eapply list_elem_of_lookup_2.
Qed.

Lemma wf_init raw_keys self t :
  __init__ raw_keys = (Return self, t) -> wf self.
Proof.
  intros Hinit. destruct raw_keys as [[|c raw]|]; try discriminate.
  destruct (init_run (c :: raw)) as (first & Hfirst & Hrun); [done|].
  rewrite Hrun in Hinit. destruct (init_error _ _); [discriminate|].
  injection Hinit as <- <-. by apply wf_built.
Qed.

Lemma wf__switch_key self : wf self -> wf (state_of (_switch_key self)).
Proof.
  intros (Hi & Ht & Hc & Hl & Hm).
  destruct (py_index_is_Some (api_keys self) (current_index self) Hi) as [old Hold].
  destruct (_switch_key_run self old Hold) as (new_key & Hnew & Hrun).
  destruct (py_index_Some _ _ _ Hnew) as [_ Hin].
  pose proof (keeps_pool__switch_key self Hi) as [Hi' _].
  rewrite Hrun in *. unfold state_of in *.
  destruct (init_error _ _); simpl in Hi'; split_and!; try done.
  by exists new_key.
Qed.

Lemma wf__check_and_switch_key self :
  wf self -> wf (state_of (_check_and_switch_key self)).
Proof.
  intros Hwf. pose proof Hwf as (Hi & Ht & _).
  destruct (current_key_tracked self Hi Ht) as (key & used & Hkey & Hused).
  destruct (decide (1000000 - used < 3000)) as [Hq|Hq].
  - destruct (_switch_key_run self key Hkey) as (new_key & Hnew & Hswitch).
    destruct (_check_and_switch_key_low self key used Hkey Hused Hq)
      as (new_key' & Hnew' & ->).
    assert (new_key' = new_key) as -> by congruence.
    pose proof (wf__switch_key self Hwf) as Hwf'. rewrite Hswitch in Hwf'.
    by destruct (init_error _ _).
  - by rewrite (_check_and_switch_key_ok self key used Hkey Hused Hq).
Qed.

Lemma wf_set_usage_tracker self k v :
  wf self -> wf (set_usage_tracker (<[k := v]> (usage_tracker self)) self).
Proof.
  intros (Hi & Ht & Hc & Hl & Hm). split_and!; try done.
  unfold tracked in *. cbn [api_keys usage_tracker set_usage_tracker].
  eapply Forall_impl; [exact Ht|]. intros k' Hk'. cbv beta in *.
  destruct (decide (k = k')) as [->|Hne].
  - rewrite lookup_insert_eq. by eexists.
  - by rewrite lookup_insert_ne.
Qed.

Lemma wf_chat prompt system_prompt self :
  wf self -> wf (state_of (chat prompt system_prompt self)).
Proof.
  intros Hwf. pose proof (wf__check_and_switch_key self Hwf) as Hmid.
  destruct (chat_state_cases prompt system_prompt self)
    as [->|(k & old & response & _ & ->)]; [done|].
  by apply wf_set_usage_tracker.
Qed.

End WithProvider.

(** The invariants hold in every reachable state. *)
Lemma reachable_wf self : reachable self -> wf self.
Proof.
  induction 1 as [raw self Hinit| | | | |].
  - by eapply wf_init.
  - by apply wf_chat.
  - by apply wf__check_and_switch_key.
  - by apply wf__switch_key.
  - done.
  - done.
Qed.

Section Claims.

Context {P : Provider E}.

(** ** Rotating several times *)

Lemma times_S n (m : M unit) self :
  times (S n) m self
  = match m self with
    | (Return _, self', t) =>
        let '(r, self'', t') := times n m self' in (r, self'', t ++ t')
    | (Raise e, self', t) => (Raise e, self', t)
    end.
Proof. reflexivity. Qed.

(** Whether it returns or raises, a rotation moves the cursor one position
    forward, cyclically, and writes nothing else than the cursor and the
    client. *)
Lemma _switch_key_state self :
  index_ok self ->
  index_ok (state_of (_switch_key self))
  /\ current_index (state_of (_switch_key self))
     = (current_index self + 1) mod Z.of_nat (length (api_keys self))
  /\ api_keys (state_of (_switch_key self)) = api_keys self
  /\ usage_tracker (state_of (_switch_key self)) = usage_tracker self
  /\ model_name (state_of (_switch_key self)) = model_name self.
Proof.
  intros Hi. destruct (keeps_pool__switch_key self Hi) as [Hi' Hkeys].
  destruct (py_index_is_Some _ _ Hi) as [old Hold].
  destruct (_switch_key_run self old Hold) as (new_key & _ & Hrun).
  split_and!; [done | | done | apply keeps_usage_tracker__switch_key |];
    rewrite Hrun; by destruct (init_error _ _).
Qed.

(** [k] rotations on the same object move the cursor [k] positions
    forward, cyclically, whether they return or raise. *)
Lemma after__switch_key k self :
  index_ok self ->
  index_ok (after k _switch_key self)
  /\ current_index (after k _switch_key self)
     = (current_index self + Z.of_nat k) mod Z.of_nat (length (api_keys self))
  /\ api_keys (after k _switch_key self) = api_keys self
  /\ usage_tracker (after k _switch_key self) = usage_tracker self
  /\ model_name (after k _switch_key self) = model_name self.
Proof.
  revert self. induction k as [|k IH]; intros self Hi.
  - unfold index_ok in Hi. simpl. split_and!; try done.
    rewrite Z.add_0_r, Z.mod_small; [done | lia].
  - destruct (_switch_key_state self Hi) as (Hi' & Hidx & Hkeys & Husage & Hname).
    destruct (IH _ Hi') as (Hi'' & Hidx' & Hkeys' & Husage' & Hname').
    cbn [after]. rewrite Hidx', Hkeys', Husage', Hname', Hidx, Hkeys.
    split_and!; try done.
    rewrite Z.add_mod_idemp_l by (unfold index_ok in Hi; lia). f_equal. lia.
Qed.

(** Where the constructor accepts every key of the pool, rotations return. *)
Lemma times__switch_key k self :
  index_ok self -> accepts_pool self ->
  outcome_of (times k _switch_key self) = Return tt
  /\ state_of (times k _switch_key self) = after k _switch_key self
  /\ length (filter (fun ev => is_InitClient ev = true)
               (trace_of (times k _switch_key self))) = k.
Proof.
  revert self. induction k as [|k IH]; intros self Hi Hacc; [done|].
  destruct (py_index_is_Some _ _ Hi) as [old Hold].
  destruct (_switch_key_run self old Hold) as (new_key & Hnew & Hrun).
  destruct (py_index_Some _ _ _ Hnew) as [_ Hin].
  pose proof Hacc as Hall. unfold accepts_pool in Hall. rewrite Forall_forall in Hall.
  rewrite (Hall new_key Hin) in Hrun.
  pose proof (keeps_pool__switch_key self Hi) as [Hi' _].
  rewrite Hrun in Hi'. unfold state_of in Hi'. cbn [fst snd] in Hi'.
  specialize (IH _ Hi' Hacc).
  rewrite times_S. cbn [after]. rewrite Hrun.
  destruct (times k _switch_key _) as [[r self''] t'].
  unfold outcome_of, state_of, trace_of in *. cbn [fst snd] in *.
  destruct IH as (-> & -> & Hlen). split_and!; try done.
  rewrite filter_app, length_app, Hlen.
  rewrite filter_cons_True by done. by rewrite filter_cons_False by done.
Qed.

(** Where every key is low, the rotation check leaves what the rotation
    leaves. *)
Lemma _check_and_switch_key_all_low self :
  index_ok self -> all_low self ->
  outcome_of (_check_and_switch_key self) = outcome_of (_switch_key self)
  /\ state_of (_check_and_switch_key self) = state_of (_switch_key self).
Proof.
  intros Hi Hlow. destruct (py_index_is_Some _ _ Hi) as [key Hkey].
  destruct (py_index_Some _ _ _ Hkey) as [_ Hin].
  unfold all_low in Hlow. rewrite Forall_forall in Hlow.
  destruct (Hlow key Hin) as (used & Hused & Hq).
  destruct (_check_and_switch_key_low self key used Hkey Hused Hq)
    as (new_key & Hnew & ->).
  destruct (_switch_key_run self key Hkey) as (new_key' & Hnew' & ->).
  assert (new_key' = new_key) as -> by congruence.
  by destruct (init_error _ _).
Qed.

Lemma all_low__switch_key self :
  index_ok self -> all_low self -> all_low (state_of (_switch_key self)).
Proof.
  intros Hi Hlow. destruct (_switch_key_state self Hi) as (_ & _ & Hkeys & Husage & _).
  unfold all_low. by rewrite Hkeys, Husage.
Qed.

Lemma after__check_and_switch_key_all_low k self :
  index_ok self -> all_low self ->
  after k _check_and_switch_key self = after k _switch_key self.
Proof.
  revert self. induction k as [|k IH]; intros self Hi Hlow; [done|].
  destruct (_check_and_switch_key_all_low self Hi Hlow) as [_ Hstate].
  cbn [after]. rewrite Hstate. apply IH.
  - by apply keeps_pool__switch_key.
  - by apply all_low__switch_key.
Qed.

Lemma times__check_and_switch_key_all_low k self :
  index_ok self -> all_low self -> accepts_pool self ->
  outcome_of (times k _check_and_switch_key self) = Return tt
  /\ state_of (times k _check_and_switch_key self)
     = after k _check_and_switch_key self.
Proof.
  revert self. induction k as [|k IH]; intros self Hi Hlow Hacc; [done|].
  destruct (py_index_is_Some _ _ Hi) as [key Hkey].
  destruct (py_index_Some _ _ _ Hkey) as [_ Hin].
  pose proof Hlow as Hall. unfold all_low in Hall. rewrite Forall_forall in Hall.
  destruct (Hall key Hin) as (used & Hused & Hq).
  destruct (_check_and_switch_key_low self key used Hkey Hused Hq)
    as (new_key & Hnew & Hcheck).
  destruct (py_index_Some _ _ _ Hnew) as [_ Hin'].
  pose proof Hacc as Hok. unfold accepts_pool in Hok. rewrite Forall_forall in Hok.
  rewrite (Hok new_key Hin') in Hcheck.
  pose proof (keeps_pool__check_and_switch_key self Hi) as [Hi' _].
  rewrite Hcheck in Hi'. unfold state_of in Hi'. cbn [fst snd] in Hi'.
  specialize (IH _ Hi' Hlow Hacc).
  rewrite times_S. cbn [after]. rewrite Hcheck.
  destruct (times k _check_and_switch_key _) as [[r s3] t3].
  unfold outcome_of, state_of in *. cbn [fst snd] in *.
  by destruct IH as [-> ->].
Qed.

(** ** The rotation check *)

(** C1, as the code has it. Wherever the key under the cursor exists and
    has a counter, [_check_and_switch_key] computes [remaining_quota =
    1000000 - usage_tracker[current_key]]. If [remaining_quota < 3000] it
    moves the cursor to [(current_index + 1) mod len(api_keys)] and asks
    for a client for the key found there: when the constructor returns,
    the check returns with that client in place; when the constructor
    raises, the check raises the same failure with the cursor moved and
    the client as it was. The counters are left alone either way.
    Otherwise it returns leaving the whole state unchanged and emitting
    nothing. The quota-low line is printed if and only if
    [remaining_quota < 3000]. *)
Theorem check_and_switch_key_rotates_iff_low self key used :
  current_key self = Some key ->
  usage_tracker self !! key = Some used ->
  let remaining_quota := 1000000 - used in
  let i' := (current_index self + 1) mod Z.of_nat (length (api_keys self)) in
  let r := _check_and_switch_key self in
  (remaining_quota < 3000 ->
   exists new_key,
     py_index (api_keys self) i' = Some new_key
     /\ match init_error (model_name self) new_key with
        | None =>
            outcome_of r = Return tt
            /\ state_of r
               = mkGroqModel (api_keys self) i' (model_name self)
                   (context_limit self)
                   (mkChatGroq (model_name self) new_key) (usage_tracker self)
            /\ filter (fun ev => is_InitClient ev = true) (trace_of r)
               = [InitClient (mkChatGroq (model_name self) new_key)]
        | Some e =>
            outcome_of r = Raise (ProviderError e)
            /\ state_of r
               = mkGroqModel (api_keys self) i' (model_name self)
                   (context_limit self) (client self) (usage_tracker self)
            /\ filter (fun ev => is_InitClient ev = true) (trace_of r) = []
        end)
  /\ (~ remaining_quota < 3000 -> r = (Return tt, self, []))
  /\ (remaining_quota < 3000
      <-> Print (QuotaLowLine (prefix 8 key) remaining_quota) ∈ trace_of r).
Proof.
  intros Hkey Hused remaining_quota i' r. subst r.
  destruct (decide (remaining_quota < 3000)) as [Hq|Hq].
  - destruct (_check_and_switch_key_low self key used Hkey Hused Hq)
      as (new_key & Hnew & ->).
    split_and!; [|done|].
    + intros _. exists new_key. split; [done|]. by destruct (init_error _ _).
    + split; [|done]. intros _. destruct (init_error _ _); by left.
  - rewrite (_check_and_switch_key_ok self key used Hkey Hused Hq).
    split_and!; [done|done|]. split; [done|]. by intros ?%elem_of_nil.
Qed.

(** ** Token accounting *)

(** C5. For every message sequence and every state,
    [get_remaining_tokens(messages)] returns, without raising and without
    changing the state, [context_limit - get_token_count(messages)], an
    exact difference of unbounded integers that may be negative; in every
    reachable state [context_limit] is 8192. *)
Theorem remaining_tokens_identity messages self :
  let estimate := get_num_tokens_from_messages (client self) messages in
  get_token_count messages self = (Return estimate, self, [])
  /\ get_remaining_tokens messages self
     = (Return (context_limit self - estimate), self, [])
  /\ (reachable self ->
      get_remaining_tokens messages self = (Return (8192 - estimate), self, [])).
Proof.
  intros estimate. split_and!; [done|done|].
  intros (_ & _ & _ & Hlimit & _)%reachable_wf.
  unfold get_remaining_tokens, get_token_count. run. by rewrite Hlimit.
Qed.

(** ** Construction *)

(** C6, as the code has it. Construction raises [ValueError] (the
    configuration error) when the setting is absent or empty. For every
    non-empty setting the pool is the list of its comma-separated pieces,
    each stripped, and construction asks for a client for the first key:
    when the constructor raises, construction raises the same failure;
    when it returns, construction returns an object with that pool, whose
    cursor is 0, on the first key, whose usage counter is 0 for every key
    of the pool (and which has no other counter), and whose client is the
    one built for the first key; building that client is the only thing
    construction does. *)
Theorem init_construction raw_keys :
  (raw_keys = None \/ raw_keys = Some [] ->
   exists msg, __init__ raw_keys = (Raise (ValueError msg), []))
  /\ (forall raw, raw_keys = Some raw -> raw <> [] ->
      let keys := strip <$> split comma raw in
      exists first,
        head keys = Some first
        /\ match init_error (py "llama-3.1-70b-versatile") first with
           | Some e => __init__ raw_keys = (Raise (ProviderError e), [])
           | None =>
               exists self,
                 __init__ raw_keys = (Return self, [InitClient (client self)])
                 /\ api_keys self = keys
                 /\ current_index self = 0
                 /\ current_key self = Some first
                 /\ (forall k, k ∈ keys -> usage_tracker self !! k = Some 0)
                 /\ (forall k, k ∉ keys -> usage_tracker self !! k = None)
                 /\ client self = mkChatGroq (model_name self) first
           end).
Proof.
  split.
  - intros H. eexists. by apply init_raises.
  - intros raw -> Hraw keys. destruct (init_run raw Hraw) as (first & Hfirst & Hrun).
    fold keys in Hfirst, Hrun. exists first. split; [by rewrite head_lookup|].
    revert Hrun. destruct (init_error _ _); intros Hrun; [done|].
    eexists. split; [exact Hrun|].
    cbn [current_index api_keys client usage_tracker model_name].
    split_and!; try done.
    + unfold current_key. cbn [current_index api_keys].
      rewrite py_index_in_range; [done|]. apply lookup_lt_Some in Hfirst. lia.
    + intros k Hk. by rewrite lookup_zero_usage, decide_True.
    + intros k Hk. by rewrite lookup_zero_usage, decide_False.
Qed.

(** C10, as the code has it. Construction raises [ValueError] if and only
    if the raw setting is absent or the empty string. For every present,
    non-empty raw string the parsed pool is the list of the
    comma-separated pieces of the raw string (joined with commas they give
    it back, and none contains a comma), each stripped of surrounding
    whitespace; it is never empty and it may hold empty keys. Construction
    then returns an object with that pool when the constructor of the
    client accepts the first key, and raises the failure of the
    constructor when it does not. For [","] the parsed pool is
    [["", ""]], so that the outcome is the one of the constructor on the
    empty key. *)
Theorem construction_raises_iff_absent_or_empty raw_keys :
  ((exists msg, (__init__ raw_keys).1 = Raise (ValueError msg))
   <-> raw_keys = None \/ raw_keys = Some [])
  /\ (forall raw, raw_keys = Some raw -> raw <> [] ->
      exists pieces first,
        join comma pieces = raw
        /\ Forall (fun w => comma ∉ w) pieces
        /\ head (strip <$> pieces) = Some first
        /\ match init_error (py "llama-3.1-70b-versatile") first with
           | Some e => (__init__ raw_keys).1 = Raise (ProviderError e)
           | None =>
               exists self,
                 (__init__ raw_keys).1 = Return self
                 /\ api_keys self = strip <$> pieces
           end)
  /\ (strip <$> split comma (py ",") = [[]; []]
      /\ match init_error (py "llama-3.1-70b-versatile") [] with
         | Some e => (__init__ (Some (py ","))).1 = Raise (ProviderError e)
         | None =>
             exists self,
               (__init__ (Some (py ","))).1 = Return self
               /\ api_keys self = [[]; []]
         end).
Proof.
  split_and!.
  - split.
    + intros [msg He]. destruct raw_keys as [[|c raw]|]; [by right | | by left].
      destruct (init_run (c :: raw)) as (first & _ & Hrun); [done|].
      rewrite Hrun in He. by destruct (init_error _ _).
    + intros H. eexists. by rewrite init_raises.
  - intros raw -> Hraw. destruct (init_run raw Hraw) as (first & Hfirst & Hrun).
    exists (split comma raw), first.
    split_and!; [apply join_split | apply split_no_sep | by rewrite head_lookup |].
    rewrite Hrun. destruct (init_error _ _); [done|]. by eexists.
  - reflexivity.
  - destruct (init_run (py ",")) as (first & Hfirst & Hrun); [done|].
    injection Hfirst as <-. rewrite Hrun.
    destruct (init_error _ _); [done|]. by eexists.
Qed.

(** ** The pool invariant *)

(** C9. Construction establishes [0 <= current_index < len(api_keys)];
    [chat], the rotation check, the rotation and the two token-accounting
    methods, whether they return or raise, preserve it and leave the pool
    exactly as it was; hence it holds in every reachable state. *)
Theorem pool_invariant :
  (forall raw_keys self t, __init__ raw_keys = (Return self, t) -> index_ok self)
  /\ (forall prompt system_prompt, keeps_pool (chat prompt system_prompt))
  /\ keeps_pool _check_and_switch_key
  /\ keeps_pool _switch_key
  /\ (forall messages, keeps_pool (get_token_count messages))
  /\ (forall messages, keeps_pool (get_remaining_tokens messages))
  /\ (forall self, reachable self -> index_ok self).
Proof.
  split_and!.
  - intros raw_keys self t Hinit. by destruct (wf_init _ _ _ Hinit).
  - apply keeps_pool_chat.
  - apply keeps_pool__check_and_switch_key.
  - apply keeps_pool__switch_key.
  - apply keeps_pool_get_token_count.
  - apply keeps_pool_get_remaining_tokens.
  - intros self Hr. by destruct (reachable_wf self Hr).
Qed.

(** ** Chat *)

(** After a rotation check that returned, started where the invariants
    hold, the key under the cursor exists and has the counter it had. *)
Lemma checked_key_tracked self mid t :
  index_ok self -> tracked self ->
  _check_and_switch_key self = (Return tt, mid, t) ->
  usage_tracker mid = usage_tracker self
  /\ exists key old, current_key mid = Some key /\ usage_tracker self !! key = Some old.
Proof.
  intros Hi Ht Hcheck.
  pose proof (keeps_pool__check_and_switch_key self Hi) as [Hi' Hkeys].
  pose proof (keeps_usage_tracker__check_and_switch_key self) as Husage.
  rewrite Hcheck in Hi', Hkeys, Husage. unfold state_of in *. cbn [fst snd] in *.
  split; [done|].
  assert (tracked mid) as Ht' by (unfold tracked; by rewrite Husage, Hkeys).
  destruct (current_key_tracked mid Hi' Ht') as (key & old & Hkey & Hold).
  exists key, old. by rewrite <- Husage.
Qed.

(** [chat] where the invariants hold, the rotation check returns and the
    provider answers. *)
Lemma chat_answer_run prompt system_prompt self mid t response :
  index_ok self -> tracked self ->
  _check_and_switch_key self = (Return tt, mid, t) ->
  let messages := build_messages prompt system_prompt in
  let used := get_num_tokens_from_messages (client self) messages in
  ainvoke (client mid) messages = inr response ->
  exists key old,
    current_key mid = Some key
    /\ usage_tracker self !! key = Some old
    /\ chat prompt system_prompt self
       = (Return (content response),
          set_usage_tracker
            (<[key := old + (used + word_count (content response))]>
               (usage_tracker self)) mid,
          Print (TokenInfoLine used (context_limit self - used))
          :: t ++ [Ainvoke (client mid) messages]).
Proof.
  intros Hi Ht Hcheck messages used Hanswer.
  destruct (checked_key_tracked self mid t Hi Ht Hcheck)
    as (Husage & key & old & Hkey & Hold).
  exists key, old. split_and!; try done.
  rewrite (chat_unfold prompt system_prompt self mid t Hcheck). fold messages used.
  by rewrite Hanswer, Hkey, Husage, Hold.
Qed.

(** The trace of [chat] after a rotation check that returned: the token
    line, what the check emitted, the one request. *)
Lemma chat_trace prompt system_prompt self mid t :
  _check_and_switch_key self = (Return tt, mid, t) ->
  let messages := build_messages prompt system_prompt in
  let used := get_num_tokens_from_messages (client self) messages in
  trace_of (chat prompt system_prompt self)
  = Print (TokenInfoLine used (context_limit self - used))
    :: t ++ [Ainvoke (client mid) messages].
Proof.
  intros Hcheck messages used.
  rewrite (chat_unfold prompt system_prompt self mid t Hcheck). fold messages used.
  destruct (ainvoke _ _); [done|].
  destruct (current_key mid); [|done]. by destruct (usage_tracker mid !! _).
Qed.

Lemma chat_one_request prompt system_prompt self mid t :
  _check_and_switch_key self = (Return tt, mid, t) ->
  filter (fun ev => is_Ainvoke ev = true) (trace_of (chat prompt system_prompt self))
  = [Ainvoke (client mid) (build_messages prompt system_prompt)].
Proof.
  intros Hcheck. rewrite (chat_trace prompt system_prompt self mid t Hcheck).
  pose proof (silent__check_and_switch_key self) as Hquiet.
  rewrite Hcheck in Hquiet. unfold trace_of in Hquiet. cbn [snd] in Hquiet.
  rewrite filter_cons_False by done. by rewrite filter_app, Hquiet.
Qed.

(** C2. Where the invariants hold, the rotation check returns and the
    provider answers, [chat] returns the text of the answer. Every [chat]
    call that returns has added exactly [used + len(text.split())] to the
    counter of the key under the cursor after the rotation check, [used]
    being the token count of the messages taken through the client in
    place before the check, and has left every other counter as it was;
    when the check did not rotate, that key is the one that was under the
    cursor before the call. *)
Theorem chat_success_updates_usage prompt system_prompt self :
  let messages := build_messages prompt system_prompt in
  let used := get_num_tokens_from_messages (client self) messages in
  let mid := state_of (_check_and_switch_key self) in
  let r := chat prompt system_prompt self in
  (forall response,
     index_ok self -> tracked self ->
     outcome_of (_check_and_switch_key self) = Return tt ->
     ainvoke (client mid) messages = inr response ->
     outcome_of r = Return (content response))
  /\ (forall text,
        outcome_of r = Return text ->
        exists key old response,
          ainvoke (client mid) messages = inr response
          /\ text = content response
          /\ current_key mid = Some key
          /\ current_key (state_of r) = Some key
          /\ usage_tracker self !! key = Some old
          /\ usage_tracker (state_of r) !! key = Some (old + (used + word_count text))
          /\ (forall k, k <> key ->
                usage_tracker (state_of r) !! k = usage_tracker self !! k)
          /\ (forall key0 used0,
                current_key self = Some key0 ->
                usage_tracker self !! key0 = Some used0 ->
                ~ 1000000 - used0 < 3000 ->
                key = key0)).
Proof.
  intros messages used mid r. subst r mid. split.
  - intros response Hi Ht.
    destruct (_check_and_switch_key self) as [[[[]|e] mid] t] eqn:Hcheck; [|done].
    intros _ Hanswer.
    destruct (chat_answer_run prompt system_prompt self mid t response Hi Ht
                Hcheck Hanswer) as (k & old & _ & _ & Hrun).
    by rewrite Hrun.
  - intros text.
    pose proof (keeps_usage_tracker__check_and_switch_key self) as Husage.
    destruct (_check_and_switch_key self) as [[[[]|e] mid] t] eqn:Hcheck;
      [|by rewrite (chat_check_raises _ _ _ _ _ _ Hcheck)].
    unfold state_of in *. cbn [fst snd] in *.
    rewrite (chat_unfold prompt system_prompt self mid t Hcheck). fold messages used.
    destruct (ainvoke _ _) as [e|response]; [done|].
    destruct (current_key mid) as [k|] eqn:Hk; [|done].
    destruct (usage_tracker mid !! k) as [old|] eqn:Hold; [|done].
    unfold outcome_of. cbn [fst snd]. intros [= <-].
    exists k, old, response. rewrite <- Husage. split_and!; try done.
    + cbn [usage_tracker set_usage_tracker]. apply lookup_insert_eq.
    + intros k' Hne. cbn [usage_tracker set_usage_tracker].
      by apply lookup_insert_ne.
    + intros key0 used0 Hkey0 Hused0 Hq. rewrite Husage in Hused0.
      rewrite (_check_and_switch_key_ok self key0 used0 Hkey0 Hused0 Hq) in Hcheck.
      injection Hcheck as <- _. congruence.
Qed.

(** C8. When the rotation check has returned and the request to the
    provider fails, [chat] raises that very failure: the state is the one
    the rotation check left (no rotation in reaction to the failure),
    every usage counter is as before the call, and exactly one request was
    sent (no retry). *)
Theorem chat_failure_propagates prompt system_prompt self e :
  let messages := build_messages prompt system_prompt in
  let check := _check_and_switch_key self in
  let mid := state_of check in
  outcome_of check = Return tt ->
  ainvoke (client mid) messages = inl e ->
  let r := chat prompt system_prompt self in
  outcome_of r = Raise (ProviderError e)
  /\ state_of r = mid
  /\ usage_tracker (state_of r) = usage_tracker self
  /\ (exists line, trace_of r
                   = Print line :: trace_of check ++ [Ainvoke (client mid) messages])
  /\ filter (fun ev => is_Ainvoke ev = true) (trace_of r)
     = [Ainvoke (client mid) messages].
Proof.
  intros messages check mid Hret Hfail r. subst r mid check.
  pose proof (keeps_usage_tracker__check_and_switch_key self) as Husage.
  destruct (_check_and_switch_key self) as [[[[]|e'] mid] t] eqn:Hcheck; [|done].
  unfold state_of, trace_of in *. cbn [fst snd] in *.
  pose proof (chat_one_request prompt system_prompt self mid t Hcheck) as Hone.
  pose proof (chat_unfold prompt system_prompt self mid t Hcheck) as Hrun.
  cbv zeta in Hrun. fold messages in Hrun, Hone. rewrite Hfail in Hrun.
  rewrite Hrun in *. unfold outcome_of. cbn [fst snd] in *.
  split_and!; try done. by eexists.
Qed.

(** C7, as the code has it. [chat] does not look at the prompt: called
    with the empty string where the invariants hold, it runs the rotation
    check and, when the check returns, sends exactly one request, whose
    messages end with a user message of empty content. When the provider
    answers, [chat] returns the text of the answer and has raised the
    usage counter of the current key; when the provider fails, [chat]
    raises that failure. *)
Theorem chat_accepts_empty_prompt system_prompt self :
  index_ok self -> tracked self ->
  let messages := build_messages [] system_prompt in
  let check := _check_and_switch_key self in
  let mid := state_of check in
  outcome_of check = Return tt ->
  let r := chat [] system_prompt self in
  last messages = Some (HumanMessage [])
  /\ filter (fun ev => is_Ainvoke ev = true) (trace_of r)
     = [Ainvoke (client mid) messages]
  /\ match ainvoke (client mid) messages with
     | inl e => outcome_of r = Raise (ProviderError e) /\ state_of r = mid
     | inr response =>
         outcome_of r = Return (content response)
         /\ exists key old,
              current_key mid = Some key
              /\ usage_tracker self !! key = Some old
              /\ usage_tracker (state_of r) !! key
                 = Some (old + (get_num_tokens_from_messages (client self) messages
                                + word_count (content response)))
     end.
Proof.
  intros Hi Ht messages check mid Hret r. subst r mid check.
  destruct (_check_and_switch_key self) as [[[[]|e'] mid] t] eqn:Hcheck; [|done].
  unfold state_of in *. cbn [fst snd] in *. split_and!.
  - by destruct system_prompt as [[|c sp]|].
  - exact (chat_one_request [] system_prompt self mid t Hcheck).
  - destruct (ainvoke (client mid) messages) as [e|response] eqn:Hanswer.
    + rewrite (chat_unfold [] system_prompt self mid t Hcheck). fold messages.
      by rewrite Hanswer.
    + destruct (chat_answer_run [] system_prompt self mid t response Hi Ht
                  Hcheck Hanswer) as (key & old & Hkey & Hold & Hrun).
      fold messages in Hrun. rewrite Hrun. unfold outcome_of. cbn [fst snd].
      split; [done|]. exists key, old. split_and!; try done.
      cbn [usage_tracker set_usage_tracker]. apply lookup_insert_eq.
Qed.


(** ** Cyclic rotation *)

(** C4. Rotation is cyclic: [k] rotations on the same object move the
    cursor from [i] to [(i + k) mod N], [N >= 1] being the size of the
    pool, so that [N] rotations from 0 bring it back to 0; the same holds
    of [k] rotation checks when every key is low. Where the constructor
    of the client accepts every key of the pool, the rotations all
    return. In a pool of one key, whose client the constructor builds, a
    rotation returns, leaves the cursor at 0 and rebuilds the client for
    the same key; so does any number of them. *)
Theorem rotation_is_cyclic :
  (forall self k,
     index_ok self ->
     current_index (after k _switch_key self)
     = (current_index self + Z.of_nat k) mod Z.of_nat (length (api_keys self))
     /\ (all_low self ->
         current_index (after k _check_and_switch_key self)
         = (current_index self + Z.of_nat k) mod Z.of_nat (length (api_keys self)))
     /\ (accepts_pool self ->
         outcome_of (times k _switch_key self) = Return tt
         /\ state_of (times k _switch_key self) = after k _switch_key self))
  /\ (forall self,
        index_ok self -> current_index self = 0 ->
        current_index (after (length (api_keys self)) _switch_key self) = 0
        /\ (all_low self ->
            current_index (after (length (api_keys self)) _check_and_switch_key self)
            = 0))
  /\ (forall self key k,
        api_keys self = [key] -> current_index self = 0 ->
        init_error (model_name self) key = None ->
        _switch_key self
        = (Return tt, set_client (mkChatGroq (model_name self) key) self,
           [InitClient (mkChatGroq (model_name self) key);
            Print (SwitchedLine (prefix 8 key) (prefix 8 key))])
        /\ outcome_of (times k _switch_key self) = Return tt
        /\ current_index (state_of (times k _switch_key self)) = 0
        /\ (all_low self ->
            outcome_of (times k _check_and_switch_key self) = Return tt
            /\ current_index (state_of (times k _check_and_switch_key self)) = 0)).
Proof.
  assert (forall self k, index_ok self -> all_low self ->
            current_index (after k _check_and_switch_key self)
            = (current_index self + Z.of_nat k)
                mod Z.of_nat (length (api_keys self))) as Hchecks.
  { intros self k Hi Hlow. rewrite after__check_and_switch_key_all_low by done.
    by destruct (after__switch_key k self Hi) as (_ & -> & _). }
  split_and!.
  - intros self k Hi. destruct (after__switch_key k self Hi) as (_ & Hidx & _).
    split_and!; [done | by apply Hchecks |].
    intros Hacc. by destruct (times__switch_key k self Hi Hacc) as (? & ? & _).
  - intros self Hi H0.
    assert ((current_index self + Z.of_nat (length (api_keys self)))
              mod Z.of_nat (length (api_keys self)) = 0) as Hback
      by (rewrite H0, Z.add_0_l; apply Z_mod_same_full).
    destruct (after__switch_key (length (api_keys self)) self Hi) as (_ & Hidx & _).
    split; [by rewrite Hidx|]. intros Hlow. by rewrite Hchecks.
  - intros self key k Hkeys H0 Hok.
    assert (index_ok self) as Hi by (unfold index_ok; rewrite Hkeys, H0; simpl; lia).
    assert (current_key self = Some key) as Hkey
      by (unfold current_key; by rewrite Hkeys, H0).
    assert (accepts_pool self) as Hacc
      by (unfold accepts_pool; rewrite Hkeys; by repeat constructor).
    destruct (times__switch_key k self Hi Hacc) as (Hr & Hs & _).
    destruct (after__switch_key k self Hi) as (_ & Hidx & _).
    assert (current_index (after k _switch_key self) = 0) as Hidx0.
    { rewrite Hidx, Hkeys. simpl. apply Z.mod_1_r. }
    split_and!; try done.
    + destruct (_switch_key_run self key Hkey) as (new_key & Hnew & ->).
      rewrite Hkeys, H0 in Hnew. injection Hnew as <-. rewrite Hok.
      rewrite Hkeys, H0. destruct self; simpl in *. by subst.
    + by rewrite Hs.
    + intros Hlow.
      destruct (times__check_and_switch_key_all_low k self Hi Hlow Hacc) as [Hr' Hs'].
      split; [done|]. rewrite Hs'.
      by rewrite after__check_and_switch_key_all_low.
Qed.

(** ** Further properties of [chat] *)

(** X1. Started where the invariants hold, the rotation, the rotation
    check and [chat] raise nothing but a failure of the provider's
    library: no [IndexError], [KeyError], [ZeroDivisionError] or
    [ValueError] comes out of them. Where the constructor of the client
    accepts every key of the pool, the rotation and the check return, and
    [chat] returns the text of the answer or raises the failure of the
    request. *)
Theorem chat_raises_only_provider_errors prompt system_prompt self :
  index_ok self -> tracked self ->
  (forall x, outcome_of (_switch_key self) = Raise x -> exists e, x = ProviderError e)
  /\ (forall x, outcome_of (_check_and_switch_key self) = Raise x ->
      exists e, x = ProviderError e)
  /\ (forall x, outcome_of (chat prompt system_prompt self) = Raise x ->
      exists e, x = ProviderError e)
  /\ (accepts_pool self ->
      outcome_of (_switch_key self) = Return tt
      /\ outcome_of (_check_and_switch_key self) = Return tt
      /\ outcome_of (chat prompt system_prompt self)
         = match ainvoke (client (state_of (_check_and_switch_key self)))
                   (build_messages prompt system_prompt) with
           | inr response => Return (content response)
           | inl e => Raise (ProviderError e)
           end).
Proof.
  intros Hi Ht.
  destruct (current_key_tracked self Hi Ht) as (key & used & Hkey & Hused).
  destruct (_switch_key_run self key Hkey) as (new_key & Hnew & Hswitch).
  destruct (py_index_Some _ _ _ Hnew) as [_ Hin].
  assert (forall x, outcome_of (_check_and_switch_key self) = Raise x ->
            exists e, x = ProviderError e) as Hcheckx.
  { intros x. destruct (decide (1000000 - used < 3000)) as [Hq|Hq].
    - destruct (_check_and_switch_key_low self key used Hkey Hused Hq)
        as (new_key' & _ & ->).
      unfold outcome_of.
      destruct (init_error (model_name self) new_key') as [e|]; cbn [fst snd];
        [|done].
      intros [= <-]. by exists e.
    - by rewrite (_check_and_switch_key_ok self key used Hkey Hused Hq). }
  assert (forall x, outcome_of (chat prompt system_prompt self) = Raise x ->
            exists e, x = ProviderError e) as Hchatx.
  { intros x.
    destruct (_check_and_switch_key self) as [[[[]|e'] mid] t] eqn:Hcheck.
    - destruct (checked_key_tracked self mid t Hi Ht Hcheck)
        as (Husage & k & old & Hk & Hold).
      rewrite (chat_unfold prompt system_prompt self mid t Hcheck).
      rewrite Hk, Husage, Hold. unfold outcome_of.
      destruct (ainvoke _ _) as [e|response]; cbn [fst snd]; [|done].
      intros [= <-]. by exists e.
    - rewrite (chat_check_raises prompt system_prompt self e' mid t Hcheck).
      unfold outcome_of in *. cbn [fst snd] in *. intros [= <-]. by apply Hcheckx. }
  split_and!; [|done|done|].
  - intros x. rewrite Hswitch. unfold outcome_of.
    destruct (init_error _ _) as [e|]; cbn [fst snd]; [|done].
    intros [= <-]. by exists e.
  - intros Hacc.
    assert (outcome_of (_switch_key self) = Return tt) as Hs.
    { unfold accepts_pool in Hacc. rewrite Forall_forall in Hacc.
      by rewrite Hswitch, (Hacc new_key Hin). }
    assert (outcome_of (_check_and_switch_key self) = Return tt) as Hc.
    { destruct (_check_and_switch_key self) as [[[[]|x] mid] t] eqn:Hcheck; [done|].
      destruct (decide (1000000 - used < 3000)) as [Hq|Hq].
      - destruct (_check_and_switch_key_low self key used Hkey Hused Hq)
          as (new_key' & Hnew' & Hlow).
        assert (new_key' = new_key) as -> by congruence.
        unfold accepts_pool in Hacc. rewrite Forall_forall in Hacc.
        rewrite (Hacc new_key Hin) in Hlow. congruence.
      - rewrite (_check_and_switch_key_ok self key used Hkey Hused Hq) in Hcheck.
        congruence. }
    split_and!; [done | done |].
    destruct (_check_and_switch_key self) as [[[[]|x] mid] t] eqn:Hcheck; [|done].
    destruct (checked_key_tracked self mid t Hi Ht Hcheck)
      as (Husage & k & old & Hk & Hold).
    rewrite (chat_unfold prompt system_prompt self mid t Hcheck).
    unfold state_of. cbn [fst snd]. rewrite Hk, Husage, Hold.
    by destruct (ainvoke _ _).
Qed.

(** X2. How [chat] fails on a missing key or counter. With no key under
    the cursor it raises [IndexError], and with a key under the cursor
    that has no counter it raises [KeyError], in both cases before any
    request, having printed the token line only and leaving the state as
    it was. When the rotation check returns and the provider answers but
    the key then under the cursor has no counter, it raises [KeyError]
    after the request was sent, leaving the state the check left. *)
Theorem chat_fails_on_missing_key prompt system_prompt self :
  let messages := build_messages prompt system_prompt in
  let used := get_num_tokens_from_messages (client self) messages in
  (current_key self = None ->
   chat prompt system_prompt self
   = (Raise IndexError, self, [Print (TokenInfoLine used (context_limit self - used))]))
  /\ (forall key,
        current_key self = Some key -> usage_tracker self !! key = None ->
        chat prompt system_prompt self
        = (Raise (KeyError key), self,
           [Print (TokenInfoLine used (context_limit self - used))]))
  /\ (forall mid t response key,
        _check_and_switch_key self = (Return tt, mid, t) ->
        ainvoke (client mid) messages = inr response ->
        current_key mid = Some key -> usage_tracker self !! key = None ->
        chat prompt system_prompt self
        = (Raise (KeyError key), mid,
           Print (TokenInfoLine used (context_limit self - used))
           :: t ++ [Ainvoke (client mid) messages])).
Proof.
  intros messages used. split_and!.
  - intros Hkey. apply chat_check_raises.
    unfold _check_and_switch_key. run. unfold current_key in Hkey. by rewrite Hkey.
  - intros key Hkey Hused. apply chat_check_raises.
    unfold _check_and_switch_key. run. unfold current_key in Hkey.
    rewrite Hkey. simpl. by rewrite Hused.
  - intros mid t response key Hcheck Hanswer Hkey Hnone.
    pose proof (keeps_usage_tracker__check_and_switch_key self) as Husage.
    rewrite Hcheck in Husage. unfold state_of in Husage. cbn [fst snd] in Husage.
    rewrite (chat_unfold prompt system_prompt self mid t Hcheck). fold messages used.
    by rewrite Hanswer, Hkey, Husage, Hnone.
Qed.

(** X3. When the token count of the messages is not negative, [chat] lowers
    no usage counter and removes none, in any state and whatever the
    provider does. *)
Theorem chat_usage_monotone prompt system_prompt self k old :
  0 <= get_num_tokens_from_messages (client self)
         (build_messages prompt system_prompt) ->
  usage_tracker self !! k = Some old ->
  exists new,
    usage_tracker (state_of (chat prompt system_prompt self)) !! k = Some new
    /\ old <= new.
Proof.
  intros Hused Hold.
  pose proof (keeps_usage_tracker__check_and_switch_key self) as Hkeep.
  destruct (chat_state_cases prompt system_prompt self)
    as [->|(k' & old' & response & Hold' & ->)].
  - exists old. by rewrite Hkeep.
  - cbn [usage_tracker set_usage_tracker]. rewrite Hkeep in *.
    destruct (decide (k' = k)) as [->|Hne].
    + rewrite lookup_insert_eq. eexists. split; [done|].
      assert (old' = old) as -> by congruence.
      unfold word_count. lia.
    + rewrite lookup_insert_ne by done. by exists old.
Qed.

(** X4. In every reachable state the client is one built, with the fixed
    model name, for a key of the pool; it is the one of the key under the
    cursor after construction and after every rotation or rotation check
    that returns, started with such a client. *)
Theorem reachable_client_of_pool_key self :
  reachable self ->
  (exists key,
     key ∈ api_keys self
     /\ client self = mkChatGroq (py "llama-3.1-70b-versatile") key)
  /\ (index_ok self ->
      outcome_of (_switch_key self) = Return tt ->
      client_bound (state_of (_switch_key self)))
  /\ (tracked self -> client_bound self ->
      outcome_of (_check_and_switch_key self) = Return tt ->
      client_bound (state_of (_check_and_switch_key self))).
Proof.
  intros (Hi & Ht & (key & Hin & Hc) & _ & Hname)%reachable_wf.
  destruct (current_key_tracked self Hi Ht) as (key0 & used0 & Hkey0 & Hused0).
  assert (outcome_of (_switch_key self) = Return tt ->
          client_bound (state_of (_switch_key self))) as Hswitch.
  { destruct (_switch_key_run self key0 Hkey0) as (new_key & Hnew & ->).
    destruct (init_error _ _); [done|]. intros _. unfold state_of. cbn [fst snd].
    unfold client_bound, current_key.
    cbn [api_keys current_index client model_name set_client set_current_index].
    by rewrite Hnew. }
  split_and!; [|done|].
  - exists key. by rewrite <- Hname.
  - intros _ Hb. destruct (decide (1000000 - used0 < 3000)) as [Hq|Hq].
    + destruct (_switch_key_run self key0 Hkey0) as (new_key & Hnew & Hs).
      destruct (_check_and_switch_key_low self key0 used0 Hkey0 Hused0 Hq)
        as (new_key' & Hnew' & ->).
      assert (new_key' = new_key) as -> by congruence.
      destruct (init_error _ _); [done|]. intros _. unfold state_of. cbn [fst snd].
      unfold client_bound, current_key.
      cbn [api_keys current_index client model_name set_client set_current_index].
      by rewrite Hnew.
    + by rewrite (_check_and_switch_key_ok self key0 used0 Hkey0 Hused0 Hq).
Qed.

End Claims.

Section Counters.

(** [chat] neither adds nor removes a counter. *)
Lemma chat_keeps_counter_keys `{P : Provider E} prompt system_prompt self k :
  is_Some (usage_tracker (state_of (chat prompt system_prompt self)) !! k)
  <-> is_Some (usage_tracker self !! k).
Proof.
  pose proof (keeps_usage_tracker__check_and_switch_key self) as Hkeep.
  destruct (chat_state_cases prompt system_prompt self)
    as [->|(k' & old' & response & Hold' & ->)].
  - by rewrite Hkeep.
  - cbn [usage_tracker set_usage_tracker]. rewrite Hkeep in *.
    destruct (decide (k' = k)) as [->|Hne].
    + rewrite lookup_insert_eq, Hold'. split; by eexists.
    + by rewrite lookup_insert_ne.
Qed.

(** X5. In every reachable state there is one usage counter for each distinct
    key of the pool and no other: no method adds or removes a counter. *)
Theorem reachable_exact_counters self : reachable self -> exact_counters self.
Proof.
  induction 1 as [P raw self Hinit|P prompt sp self Hr IH|P self Hr IH|P self Hr IH
                 | |]; try done.
  - destruct raw as [[|c raw]|]; try discriminate.
    destruct (init_run (c :: raw)) as (first & _ & Hrun); [done|].
    rewrite Hrun in Hinit. destruct (init_error _ _); [discriminate|].
    injection Hinit as <-. intros k.
    cbn [usage_tracker api_keys]. rewrite lookup_zero_usage.
    case_decide; split; try done; by intros [? ?].
  - intros k. rewrite chat_keeps_counter_keys.
    destruct (keeps_constants api_keys prompt sp [])
      as (_ & _ & _ & _ & Hkeys); try done.
    rewrite Hkeys. apply IH.
  - pose proof (reachable_wf self Hr) as (Hi & _).
    destruct (keeps_pool__check_and_switch_key self Hi) as [_ Hkeys].
    intros k. rewrite keeps_usage_tracker__check_and_switch_key, Hkeys. apply IH.
  - pose proof (reachable_wf self Hr) as (Hi & _).
    destruct (keeps_pool__switch_key self Hi) as [_ Hkeys].
    intros k. rewrite keeps_usage_tracker__switch_key, Hkeys. apply IH.
Qed.

End Counters.

Section Exhaustion.

Context {P : Provider E}.

(** X6. Where every key of the pool is low, a [chat] call moves the cursor
    one position forward, cyclically, and signals no exhaustion: when the
    constructor of the client accepts the key found there, the one request
    goes through the client of that key; when it does not, [chat] raises
    the failure of the constructor and sends nothing. When the token count
    of the messages is not negative every key is still low afterwards, so
    the next call rotates again. *)
Theorem chat_exhausted_pool_rotates prompt system_prompt self :
  index_ok self -> all_low self ->
  let messages := build_messages prompt system_prompt in
  let i' := (current_index self + 1) mod Z.of_nat (length (api_keys self)) in
  let r := chat prompt system_prompt self in
  current_index (state_of r) = i'
  /\ (exists new_key,
        py_index (api_keys self) i' = Some new_key
        /\ match init_error (model_name self) new_key with
           | None =>
               filter (fun ev => is_Ainvoke ev = true) (trace_of r)
               = [Ainvoke (mkChatGroq (model_name self) new_key) messages]
           | Some e =>
               outcome_of r = Raise (ProviderError e)
               /\ filter (fun ev => is_Ainvoke ev = true) (trace_of r) = []
           end)
  /\ (0 <= get_num_tokens_from_messages (client self) messages ->
      all_low (state_of r)).
Proof.
  intros Hi Hlow messages i' r. subst r.
  pose proof Hlow as Hall. unfold all_low in Hall. rewrite Forall_forall in Hall.
  destruct (py_index_is_Some _ _ Hi) as [key Hkey].
  destruct (py_index_Some _ _ _ Hkey) as [_ Hin].
  destruct (Hall key Hin) as (used & Hused & Hq).
  destruct (_check_and_switch_key_low self key used Hkey Hused Hq)
    as (new_key & Hnew & Hcheck). fold i' in Hnew, Hcheck.
  destruct (py_index_Some _ _ _ Hnew) as [_ Hin'].
  destruct (Hall new_key Hin') as (u & Hu & Hq').
  destruct (init_error (model_name self) new_key) as [e|] eqn:Herr.
  - rewrite (chat_check_raises prompt system_prompt self _ _ _ Hcheck).
    unfold state_of, trace_of, outcome_of. cbn [fst snd].
    split_and!; [done | | done]. exists new_key. by rewrite Herr.
  - rewrite (chat_unfold prompt system_prompt self _ _ Hcheck). fold messages.
    unfold current_key. cbn [api_keys current_index set_client set_current_index
      usage_tracker client]. rewrite Hnew, Hu.
    destruct (ainvoke _ _) as [e|response]; unfold state_of, trace_of; cbn [fst snd].
    + split_and!; [done | | done]. exists new_key. by rewrite Herr.
    + split_and!; [done | exists new_key; by rewrite Herr |].
      intros Hcount. unfold all_low. cbn [api_keys usage_tracker set_usage_tracker
        set_client set_current_index]. apply Forall_forall. intros k Hk.
      destruct (decide (new_key = k)) as [<-|Hne].
      * rewrite lookup_insert_eq. eexists. split; [done|]. unfold word_count. lia.
      * rewrite lookup_insert_ne by done. by apply Hall.
Qed.

(** X7. The pieces of keys that [chat] prints, started where the invariants
    hold, are the first 8 characters of keys of the pool: at most 8
    characters of a key are ever shown. *)
Theorem chat_prints_key_prefixes prompt system_prompt self :
  index_ok self -> tracked self ->
  Forall (fun f => (length f <= 8)%nat /\ exists k, k ∈ api_keys self /\ f = take 8 k)
         (printed_fragments (trace_of (chat prompt system_prompt self))).
Proof.
  intros Hi Ht.
  destruct (current_key_tracked self Hi Ht) as (key & used & Hkey & Hused).
  destruct (py_index_Some _ _ _ Hkey) as [_ Hin].
  assert (forall k, k ∈ api_keys self ->
            (length (prefix 8 k) <= 8)%nat
            /\ exists k', k' ∈ api_keys self /\ prefix 8 k = take 8 k') as Hfrag.
  { intros k Hk. split; [unfold prefix; rewrite length_take; lia|]. by exists k. }
  assert (Forall (fun f => (length f <= 8)%nat
                           /\ exists k, k ∈ api_keys self /\ f = take 8 k)
                 (printed_fragments (trace_of (_check_and_switch_key self)))) as Ht'.
  { destruct (decide (1000000 - used < 3000)) as [Hq|Hq].
    - destruct (_check_and_switch_key_low self key used Hkey Hused Hq)
        as (new_key & Hnew & ->).
      destruct (py_index_Some _ _ _ Hnew) as [_ Hin'].
      destruct (init_error _ _); cbn;
        repeat (apply Forall_cons; split; [by apply Hfrag|]); constructor.
    - rewrite (_check_and_switch_key_ok self key used Hkey Hused Hq). constructor. }
  destruct (_check_and_switch_key self) as [[[[]|e] mid] t] eqn:Hcheck.
  - rewrite (chat_trace prompt system_prompt self mid t Hcheck).
    unfold printed_fragments, trace_of in *. cbn [snd] in Ht'.
    rewrite bind_cons, bind_app. cbn [line_fragments].
    apply Forall_app. split; [constructor|]. apply Forall_app. split; [done|].
    cbn. constructor.
  - rewrite (chat_check_raises prompt system_prompt self e mid t Hcheck).
    unfold printed_fragments, trace_of in *. cbn [snd] in *.
    rewrite bind_cons. cbn [line_fragments]. by apply Forall_app.
Qed.


(** ** Further properties of the rotation *)

(** X8. Rotation reaches every position of the pool: from any cursor
    inside the pool and for any position [j], fewer than [len(api_keys)]
    rotations on the same object, whether they return or raise, put the
    cursor on [j]; where the constructor of the client accepts every key
    of the pool they all return. *)
Theorem rotation_reaches_every_key self j :
  index_ok self ->
  0 <= j < Z.of_nat (length (api_keys self)) ->
  exists k,
    (k < length (api_keys self))%nat
    /\ current_index (after k _switch_key self) = j
    /\ (accepts_pool self ->
        outcome_of (times k _switch_key self) = Return tt
        /\ state_of (times k _switch_key self) = after k _switch_key self).
Proof.
  intros Hi Hj. pose proof Hi as Hrange. unfold index_ok in Hrange.
  set (n := Z.of_nat (length (api_keys self))) in *.
  assert (0 <= (j - current_index self) mod n < n) as Hk
    by (apply Z.mod_pos_bound; lia).
  exists (Z.to_nat ((j - current_index self) mod n)).
  destruct (after__switch_key (Z.to_nat ((j - current_index self) mod n)) self Hi)
    as (_ & Hidx & _).
  split_and!; [lia | |].
  - rewrite Hidx. fold n. rewrite Z2Nat.id by lia.
    rewrite Z.add_mod_idemp_r by lia.
    replace (current_index self + (j - current_index self)) with j by lia.
    apply Z.mod_small. lia.
  - intros Hacc.
    by destruct (times__switch_key (Z.to_nat ((j - current_index self) mod n))
                   self Hi Hacc) as (? & ? & _).
Qed.

(** X9. Repeated rotation checks settle on the first key that is not low:
    when the keys at the cursor and at the [m - 1] positions after it are
    low, the one [m] positions ahead is not, and the constructor of the
    client accepts every key of the pool, [m] checks in a row all return
    and put the cursor on that key, and a further check changes nothing. *)
Theorem check_settles_on_first_ok_key m self :
  index_ok self -> accepts_pool self ->
  (forall d, (d < m)%nat ->
     low_at self ((current_index self + Z.of_nat d)
                  mod Z.of_nat (length (api_keys self)))) ->
  ok_at self ((current_index self + Z.of_nat m) mod Z.of_nat (length (api_keys self))) ->
  outcome_of (times m _check_and_switch_key self) = Return tt
  /\ current_index (state_of (times m _check_and_switch_key self))
     = (current_index self + Z.of_nat m) mod Z.of_nat (length (api_keys self))
  /\ _check_and_switch_key (state_of (times m _check_and_switch_key self))
     = (Return tt, state_of (times m _check_and_switch_key self), []).
Proof.
  revert self. induction m as [|m IH]; intros self Hi Hacc Hlow Hok.
  - unfold index_ok in Hi. rewrite Z.add_0_r, Z.mod_small in * by lia.
    destruct Hok as (k & u & Hk & Hu & Hq).
    split_and!; [done | done |]. by apply (_check_and_switch_key_ok _ k u).
  - destruct (Hlow 0%nat) as (k & u & Hk & Hu & Hq); [lia|].
    pose proof Hi as Hrange. unfold index_ok in Hrange.
    rewrite Z.add_0_r, Z.mod_small in Hk by lia.
    destruct (_check_and_switch_key_low self k u Hk Hu Hq)
      as (new_key & Hnew & Hcheck).
    destruct (py_index_Some _ _ _ Hnew) as [_ Hin].
    pose proof Hacc as Hall. unfold accepts_pool in Hall.
    rewrite Forall_forall in Hall. rewrite (Hall new_key Hin) in Hcheck.
    pose proof (keeps_pool__check_and_switch_key self Hi) as [Hi' _].
    rewrite Hcheck in Hi'. unfold state_of in Hi'. cbn [fst snd] in Hi'.
    specialize (IH _ Hi' Hacc).
    cbn [api_keys current_index set_client set_current_index] in IH.
    rewrite times_S, Hcheck.
    destruct (times m _check_and_switch_key _) as [[r self''] t'].
    unfold outcome_of, state_of in *. cbn [fst snd] in *.
    replace ((current_index self + Z.of_nat (S m))
             mod Z.of_nat (length (api_keys self)))
      with (((current_index self + 1) mod Z.of_nat (length (api_keys self))
             + Z.of_nat m) mod Z.of_nat (length (api_keys self))) in *
      by (rewrite Z.add_mod_idemp_l by lia; f_equal; lia).
    apply IH; [|exact Hok].
    intros d Hd. specialize (Hlow (S d)).
    replace ((current_index self + Z.of_nat (S d))
             mod Z.of_nat (length (api_keys self)))
      with (((current_index self + 1) mod Z.of_nat (length (api_keys self))
             + Z.of_nat d) mod Z.of_nat (length (api_keys self))) in Hlow
      by (rewrite Z.add_mod_idemp_l by lia; f_equal; lia).
    apply Hlow. lia.
Qed.

(** ** Further properties of construction *)

Lemma split_app_sep sep (w r : str) :
  sep ∉ w -> split sep (w ++ sep :: r) = w :: split sep r.
Proof.
  induction w as [|c w IH]; intros Hw; simpl.
  - by rewrite N.eqb_refl.
  - apply not_elem_of_cons in Hw as [Hne Hw].
    destruct (N.eqb_spec c sep) as [->|_]; [done|]. by rewrite IH.
Qed.

Lemma split_without_sep sep (w : str) : sep ∉ w -> split sep w = [w].
Proof.
  induction w as [|c w IH]; intros Hw; simpl; [done|].
  apply not_elem_of_cons in Hw as [Hne Hw].
  destruct (N.eqb_spec c sep) as [->|_]; [done|]. by rewrite IH.
Qed.

(** Splitting what [join] built gives the pieces back. *)
Lemma split_join sep (pieces : list str) :
  pieces <> [] -> Forall (fun w => sep ∉ w) pieces ->
  split sep (join sep pieces) = pieces.
Proof.
  induction pieces as [|w ws IH]; intros Hnil Hall; [done|].
  apply Forall_cons in Hall as [Hw Hws].
  destruct ws as [|w' ws].
  - by apply split_without_sep.
  - rewrite join_cons by done. rewrite split_app_sep by done.
    by rewrite IH.
Qed.

Lemma join_not_nil sep (pieces : list str) :
  pieces <> [] -> pieces <> [[]] -> join sep pieces <> [].
Proof.
  intros Hnil Hone. destruct pieces as [|w [|w' ws]]; [done| |].
  - simpl. congruence.
  - rewrite join_cons by done. by destruct w.
Qed.

(** What [strip] leaves of a piece without the separator has none. *)
Lemma strip_no_sep sep (w : str) : sep ∉ w -> sep ∉ strip w.
Proof.
  intros Hw Hin. destruct (strip_spec w) as (l & r & Heq & _).
  apply Hw. rewrite Heq. apply elem_of_app. right. apply elem_of_app. by left.
Qed.

(** X10. Setting and pool round trip: when the setting is the keys joined
    with commas, none of the keys containing a comma or starting or ending
    with whitespace, and the constructor of the client accepts the first
    key, construction returns and the pool is that very list of keys, in
    that order, duplicates included. *)
Theorem init_pool_of_joined_keys (keys : list str) (first : str) :
  head keys = Some first -> keys <> [[]] ->
  init_error (py "llama-3.1-70b-versatile") first = None ->
  Forall (fun k => (comma ∉ k) /\ strip k = k) keys ->
  exists self,
    __init__ (Some (join comma keys)) = (Return self, [InitClient (client self)])
    /\ api_keys self = keys.
Proof.
  intros Hhead Hone Hok Hclean.
  assert (keys <> []) as Hnil by (by destruct keys).
  destruct (init_run (join comma keys)) as (first' & Hfirst & Hrun);
    [by apply join_not_nil|].
  assert (strip <$> split comma (join comma keys) = keys) as Hkeys.
  { rewrite split_join; [|done|by eapply Forall_impl; [exact Hclean|]; intros ? []].
    clear Hhead Hone Hnil Hfirst Hrun.
    induction Hclean as [|k ks [_ Hk] _ IH]; [done|].
    rewrite fmap_cons. by rewrite Hk, IH. }
  rewrite Hkeys in Hfirst, Hrun. rewrite head_lookup in Hhead.
  assert (first' = first) as -> by congruence. rewrite Hok in Hrun.
  eexists. split; [exact Hrun|]. done.
Qed.

(** X11. Whatever the non-empty setting, the pool parsed from it has one
    key more than the setting has commas, and none of its keys contains a
    comma or starts or ends with whitespace; an object that construction
    returns has that pool, and construction returns one whenever the
    constructor of the client accepts the first key. *)
Theorem init_keys_clean (raw : str) :
  raw <> [] ->
  let keys := strip <$> split comma raw in
  length keys = S (length (filter (fun c => c = comma) raw))
  /\ Forall (fun k => (comma ∉ k)
                      /\ (forall c, head k = Some c -> isspace c = false)
                      /\ (forall c, last k = Some c -> isspace c = false)) keys
  /\ (forall self t, __init__ (Some raw) = (Return self, t) -> api_keys self = keys)
  /\ (forall first,
        head keys = Some first ->
        init_error (py "llama-3.1-70b-versatile") first = None ->
        exists self,
          __init__ (Some raw) = (Return self, [InitClient (client self)])
          /\ api_keys self = keys).
Proof.
  intros Hraw keys. destruct (init_run raw Hraw) as (first & Hfirst & Hrun).
  fold keys in Hfirst, Hrun. split_and!.
  - subst keys. by rewrite length_fmap, length_split.
  - apply Forall_fmap. eapply Forall_impl; [apply split_no_sep|].
    intros w Hw. cbv beta. split; [by apply strip_no_sep|].
    destruct (strip_spec w) as (l & r & _ & _ & _ & Hhead & Hlast). by split.
  - intros self t Hinit. rewrite Hrun in Hinit.
    destruct (init_error _ _); [done|]. by injection Hinit as <- _.
  - intros first' Hhead Hok. rewrite head_lookup in Hhead.
    assert (first' = first) as -> by congruence. rewrite Hok in Hrun.
    eexists. split; [exact Hrun|]. done.
Qed.

End Exhaustion.

(** ** The word count of a response *)

Lemma length_split_ws_from (cur s : str) :
  (2 * length (split_ws_from cur s)
   <= length s + match cur with [] => 1 | _ => 2 end)%nat.
Proof.
  revert cur. induction s as [|c s IH]; intros cur; simpl.
  - destruct cur; simpl; lia.
  - destruct (isspace c).
    + destruct cur; simpl; specialize (IH []); simpl in IH; lia.
    + specialize (IH (c :: cur)). simpl in IH. destruct cur; lia.
Qed.

Lemma split_ws_from_nil (cur s : str) :
  split_ws_from cur s = [] <-> cur = [] /\ Forall (fun c => isspace c = true) s.
Proof.
  revert cur. induction s as [|c s IH]; intros cur; simpl.
  - destruct cur; split; try done. by intros [? _].
  - destruct (isspace c) eqn:Hc.
    + destruct cur.
      * rewrite IH. split; intros [? ?]; split; try done; [by constructor|].
        by eapply Forall_cons_1.
      * split; [done | by intros [? _]].
    + rewrite IH. split; [by intros [? _]|].
      intros [_ Hall]. apply Forall_cons in Hall as [Hc' _]. congruence.
Qed.

(** X12. The part of a usage update that comes from the response,
    [len(content.split())], is 0 exactly when the response is empty or
    all whitespace, and is at most half the length of the response,
    rounded up. *)
Theorem word_count_bounds (text : str) :
  0 <= word_count text
  /\ 2 * word_count text <= Z.of_nat (length text) + 1
  /\ (word_count text = 0 <-> Forall (fun c => isspace c = true) text).
Proof.
  unfold word_count, split_ws. pose proof (length_split_ws_from [] text) as Hlen.
  cbv beta iota in Hlen.
  split_and!; [lia | lia |].
  change 0 with (Z.of_nat 0).
  rewrite Nat2Z.inj_iff, length_zero_iff_nil, split_ws_from_nil.
  split; [by intros [_ ?] | done].
Qed.

End Methods.

(** ** The statements on the sample data *)

Lemma index_ok_fresh_AB : index_ok Sample.fresh_AB.
Proof. unfold index_ok. simpl. lia. Defined.

Lemma tracked_fresh_AB : tracked Sample.fresh_AB.
Proof. repeat constructor; eexists; vm_compute; reflexivity. Defined.

Lemma index_ok_low_AB : index_ok Sample.low_AB.
Proof. unfold index_ok. simpl. lia. Defined.

Lemma tracked_low_AB : tracked Sample.low_AB.
Proof. repeat constructor; eexists; vm_compute; reflexivity. Defined.

Lemma client_bound_low_AB : client_bound Sample.low_AB.
Proof. reflexivity. Defined.

Lemma accepts_pool_fresh_AB : accepts_pool (P:=Sample.answering) Sample.fresh_AB.
Proof. repeat constructor. Defined.

Lemma accepts_pool_low_AB : accepts_pool (P:=Sample.answering) Sample.low_AB.
Proof. repeat constructor. Defined.

Lemma all_low_low_single : all_low Sample.low_single.
Proof.
  repeat constructor. exists 999000. split; [vm_compute; reflexivity | lia].
Defined.

Lemma reachable_fresh_AB : reachable (E:=str) Sample.fresh_AB.
Proof.
  apply reach_init with (P := Sample.answering) (raw_keys := Some (py "keyA,keyB")).
  vm_compute. reflexivity.
Defined.

Lemma check_returns_fresh_AB :
  outcome_of (_check_and_switch_key (P:=Sample.answering) Sample.fresh_AB) = Return tt.
Proof. vm_compute. reflexivity. Defined.


Lemma failing_check_returns_low_AB :
  outcome_of (_check_and_switch_key (P:=Sample.failing) Sample.low_AB) = Return tt.
Proof. vm_compute. reflexivity. Defined.

(** The rotation check on the pool [keyA, ""], which the setting
    ["keyA,"] gives, with 1000 tokens left on [keyA] and a constructor
    that raises for an empty key: the check raises, the cursor is on the
    empty key, and the client is still the one of [keyA]. *)
Lemma check_rotation_onto_rejected_key :
  (exists self,
     __init__ (P:=Sample.answering) (Some (py "keyA,"))
     = (Return self, [InitClient (client self)])
     /\ api_keys self = api_keys Sample.low_A_empty)
  /\ current_key Sample.low_A_empty = Some Sample.keyA
  /\ usage_tracker Sample.low_A_empty !! Sample.keyA = Some 999000
  /\ outcome_of (_check_and_switch_key (P:=Sample.answering) Sample.low_A_empty)
     = Raise (ProviderError (py "GroqError: the api_key client option must be set"))
  /\ current_key (state_of (_check_and_switch_key (P:=Sample.answering)
                              Sample.low_A_empty)) = Some []
  /\ client (state_of (_check_and_switch_key (P:=Sample.answering)
                         Sample.low_A_empty))
     = mkChatGroq Sample.llama Sample.keyA
  /\ filter (fun ev => is_InitClient ev = true)
       (trace_of (_check_and_switch_key (P:=Sample.answering) Sample.low_A_empty))
     = [].
Proof.
  split_and!; try (vm_compute; reflexivity).
  exists (mkGroqModel [Sample.keyA; []] 0 Sample.llama 8192
            (mkChatGroq Sample.llama Sample.keyA) (zero_usage [Sample.keyA; []])).
  split; vm_compute; reflexivity.
Qed.

(** The rotation check on the pool [keyA, keyB] with 1000 tokens left on
    [keyA]: the cursor moves to 1 and the client is rebuilt for [keyB]. *)
Lemma check_and_switch_key_rotates_iff_low_witness :
  current_key Sample.low_AB = Some Sample.keyA
  /\ usage_tracker Sample.low_AB !! Sample.keyA = Some 999000
  /\ 1000000 - 999000 < 3000
  /\ state_of (_check_and_switch_key (P:=Sample.answering) Sample.low_AB)
     = mkGroqModel [Sample.keyA; Sample.keyB] 1 Sample.llama 8192
         (mkChatGroq Sample.llama Sample.keyB) (usage_tracker Sample.low_AB).
Proof.
  assert (current_key Sample.low_AB = Some Sample.keyA) as Hk by reflexivity.
  assert (usage_tracker Sample.low_AB !! Sample.keyA = Some 999000) as Hu
    by (vm_compute; reflexivity).
  assert (1000000 - 999000 < 3000) as Hq by lia.
  destruct (check_and_switch_key_rotates_iff_low (P:=Sample.answering) Sample.low_AB
              Sample.keyA 999000 Hk Hu) as (Hlow & _ & _).
  destruct (Hlow Hq) as (new_key & Hnew & Hcase).
  assert (new_key = Sample.keyB) as ->
    by (vm_compute in Hnew; by injection Hnew as <-).
  change (init_error (model_name Sample.low_AB) Sample.keyB) with (@None str) in Hcase.
  destruct Hcase as (_ & Hstate & _).
  split_and!; [done..|]. rewrite Hstate. reflexivity.
Defined.

(** [chat("Explain gravity", "Be concise")] with a provider that answers
    in four words: 25 characters counted, 29 added to the counter. *)
Lemma chat_success_updates_usage_witness :
  index_ok Sample.fresh_AB /\ tracked Sample.fresh_AB
  /\ outcome_of (chat (P:=Sample.answering)
                   (py "Explain gravity") (Some (py "Be concise")) Sample.fresh_AB)
     = Return (py "Gravity pulls masses together.")
  /\ usage_tracker
       (state_of (chat (P:=Sample.answering)
                    (py "Explain gravity") (Some (py "Be concise")) Sample.fresh_AB))
     !! Sample.keyA = Some (0 + (25 + 4))
  /\ usage_tracker
       (state_of (chat (P:=Sample.answering)
                    (py "Explain gravity") (Some (py "Be concise")) Sample.fresh_AB))
     !! Sample.keyB = Some 0.
Proof.
  set (r := chat (P:=Sample.answering)
              (py "Explain gravity") (Some (py "Be concise")) Sample.fresh_AB).
  pose proof (chat_success_updates_usage (P:=Sample.answering)
                (py "Explain gravity") (Some (py "Be concise")) Sample.fresh_AB)
    as [Hreturns Hupdate].
  cbv zeta in Hreturns, Hupdate. fold r in Hreturns, Hupdate.
  specialize (Hreturns (mkAIMessage (py "Gravity pulls masses together."))
                index_ok_fresh_AB tracked_fresh_AB check_returns_fresh_AB eq_refl).
  destruct (Hupdate _ Hreturns)
    as (key & old & response & _ & _ & Hkey & _ & Hold & Hnew & Hother & _).
  assert (key = Sample.keyA) as ->
    by (vm_compute in Hkey; by injection Hkey as <-).
  assert (old = 0) as -> by (vm_compute in Hold; by injection Hold as <-).
  split_and!; [exact index_ok_fresh_AB | exact tracked_fresh_AB | done | |].
  - rewrite Hnew. reflexivity.
  - rewrite Hother; [vm_compute; reflexivity | vm_compute; discriminate].
Defined.


(** Two rotations on a pool of two keys; any number on a pool of one. *)
Lemma rotation_is_cyclic_witness :
  index_ok Sample.fresh_AB /\ current_index Sample.fresh_AB = 0
  /\ current_index (after 2 (_switch_key (P:=Sample.answering)) Sample.fresh_AB) = 0
  /\ accepts_pool (P:=Sample.answering) Sample.fresh_AB
  /\ outcome_of (times 2 (_switch_key (P:=Sample.answering)) Sample.fresh_AB)
     = Return tt
  /\ api_keys Sample.low_single = [Sample.onlyKey]
  /\ init_error (Provider:=Sample.answering) (model_name Sample.low_single)
       Sample.onlyKey = None
  /\ current_index (state_of (times 5 (_switch_key (P:=Sample.answering))
                                Sample.low_single)) = 0.
Proof.
  pose proof (rotation_is_cyclic (P:=Sample.answering)) as (Hmove & Hcycle & Hsingle).
  destruct (Hcycle Sample.fresh_AB index_ok_fresh_AB eq_refl) as [Hback _].
  destruct (Hmove Sample.fresh_AB 2%nat index_ok_fresh_AB) as (_ & _ & Hreturn).
  destruct (Hreturn accepts_pool_fresh_AB) as [Hret _].
  destruct (Hsingle Sample.low_single Sample.onlyKey 5%nat eq_refl eq_refl eq_refl)
    as (_ & _ & Hstay & _).
  split_and!; [exact index_ok_fresh_AB | reflexivity | exact Hback
              | exact accepts_pool_fresh_AB | exact Hret | reflexivity | reflexivity
              | exact Hstay].
Defined.

(** The remaining context tokens in a reachable state, for a short message
    and for one of 9000 characters: 8187 and -808. *)
Lemma remaining_tokens_identity_witness :
  reachable (E:=str) Sample.fresh_AB
  /\ get_remaining_tokens (P:=Sample.answering)
       [HumanMessage (py "hello")] Sample.fresh_AB
     = (Return 8187, Sample.fresh_AB, [])
  /\ get_remaining_tokens (P:=Sample.answering)
       [HumanMessage (replicate (Z.to_nat 9000) 97%N)] Sample.fresh_AB
     = (Return (-808), Sample.fresh_AB, []).
Proof.
  split_and!; [exact reachable_fresh_AB | |].
  - rewrite (proj2 (proj2 (remaining_tokens_identity (P:=Sample.answering)
               [HumanMessage (py "hello")] Sample.fresh_AB))
               reachable_fresh_AB).
    reflexivity.
  - rewrite (proj2 (proj2 (remaining_tokens_identity (P:=Sample.answering)
               [HumanMessage (replicate (Z.to_nat 9000) 97%N)] Sample.fresh_AB))
               reachable_fresh_AB).
    vm_compute. reflexivity.
Defined.

(** Construction from the setting [" "], a list of one credential, the
    empty one, with a constructor that raises for an empty key:
    construction does not succeed. *)
Lemma init_rejected_first_key :
  py " " <> []
  /\ strip <$> split comma (py " ") = [[]]
  /\ __init__ (P:=Sample.answering) (Some (py " "))
     = (Raise (ProviderError (py "GroqError: the api_key client option must be set")),
        [])
  /\ forall self t, __init__ (P:=Sample.answering) (Some (py " ")) <> (Return self, t).
Proof.
  split_and!; [discriminate | reflexivity | reflexivity |].
  intros self t H. vm_compute in H. discriminate.
Qed.

(** Construction without the setting, and from ["keyA, keyB"]. *)
Lemma init_construction_witness :
  (exists msg, __init__ (P:=Sample.answering) None = (Raise (ValueError msg), []))
  /\ py "keyA, keyB" <> []
  /\ exists self,
       __init__ (P:=Sample.answering) (Some (py "keyA, keyB"))
       = (Return self, [InitClient (client self)])
       /\ api_keys self = [Sample.keyA; Sample.keyB]
       /\ current_index self = 0
       /\ client self = mkChatGroq (model_name self) Sample.keyA
       /\ usage_tracker self !! Sample.keyA = Some 0.
Proof.
  assert (py "keyA, keyB" <> []) as Hraw by discriminate.
  split_and!; [|exact Hraw|].
  - apply (proj1 (init_construction (P:=Sample.answering) None)). by left.
  - destruct (proj2 (init_construction (P:=Sample.answering)
                       (Some (py "keyA, keyB"))) _ eq_refl Hraw)
      as (first & Hhead & Hcase).
    assert (first = Sample.keyA) as ->
      by (vm_compute in Hhead; by injection Hhead as <-).
    change (init_error (py "llama-3.1-70b-versatile") Sample.keyA)
      with (@None str) in Hcase.
    destruct Hcase as (self & Hinit & Hkeys & Hidx & _ & Hzero & _ & Hclient).
    exists self. split_and!; try done.
    apply Hzero. vm_compute. left.
Defined.

(** [chat("")] on the fresh pool with a provider that answers: the call
    returns the answer, a request was sent and the counter of [keyA] went
    from 0 to 4. *)
Lemma chat_empty_prompt_not_rejected :
  outcome_of (chat (P:=Sample.answering) [] None Sample.fresh_AB)
  = Return (py "Gravity pulls masses together.")
  /\ (forall e,
        outcome_of (chat (P:=Sample.answering) [] None Sample.fresh_AB)
        <> Raise e)
  /\ Ainvoke (client Sample.fresh_AB) [HumanMessage []]
     ∈ trace_of (chat (P:=Sample.answering) [] None Sample.fresh_AB)
  /\ usage_tracker Sample.fresh_AB !! Sample.keyA = Some 0
  /\ usage_tracker
       (state_of (chat (P:=Sample.answering) [] None Sample.fresh_AB))
     !! Sample.keyA = Some 4
  /\ state_of (chat (P:=Sample.answering) [] None Sample.fresh_AB)
     <> Sample.fresh_AB.
Proof.
  set (r := chat (P:=Sample.answering) [] None Sample.fresh_AB).
  assert (usage_tracker (state_of r) !! Sample.keyA = Some 4) as Hnew
    by (vm_compute; reflexivity).
  split_and!.
  - vm_compute. reflexivity.
  - intros e. vm_compute. discriminate.
  - vm_compute. right. left.
  - vm_compute. reflexivity.
  - exact Hnew.
  - intros Heq. rewrite Heq in Hnew. vm_compute in Hnew. discriminate.
Qed.

Lemma chat_accepts_empty_prompt_witness :
  index_ok Sample.fresh_AB /\ tracked Sample.fresh_AB
  /\ outcome_of (_check_and_switch_key (P:=Sample.answering) Sample.fresh_AB)
     = Return tt
  /\ filter (fun ev => is_Ainvoke ev = true)
       (trace_of (chat (P:=Sample.answering) [] None Sample.fresh_AB))
     = [Ainvoke (client (state_of (_check_and_switch_key (P:=Sample.answering)
                                     Sample.fresh_AB)))
          (build_messages [] None)]
  /\ outcome_of (chat (P:=Sample.answering) [] None Sample.fresh_AB)
     = Return (py "Gravity pulls masses together.").
Proof.
  destruct (chat_accepts_empty_prompt (P:=Sample.answering) None Sample.fresh_AB
              index_ok_fresh_AB tracked_fresh_AB check_returns_fresh_AB)
    as (_ & Hone & Hcase).
  destruct Hcase as [Hreturns _].
  split_and!; [exact index_ok_fresh_AB | exact tracked_fresh_AB
              | exact check_returns_fresh_AB | exact Hone | exact Hreturns].
Defined.

(** [chat("hello")] on the low pool with a provider whose requests fail:
    the failure comes out as it is and the counters are as before. *)
Lemma chat_failure_propagates_witness :
  outcome_of (_check_and_switch_key (P:=Sample.failing) Sample.low_AB) = Return tt
  /\ outcome_of (chat (P:=Sample.failing) (py "hello") None Sample.low_AB)
     = Raise (ProviderError (py "rate limit exceeded"))
  /\ usage_tracker
       (state_of (chat (P:=Sample.failing) (py "hello") None Sample.low_AB))
     = usage_tracker Sample.low_AB.
Proof.
  destruct (chat_failure_propagates (P:=Sample.failing) (py "hello") None
              Sample.low_AB (py "rate limit exceeded")
              failing_check_returns_low_AB eq_refl)
    as (Hraises & _ & Husage & _).
  split_and!; [exact failing_check_returns_low_AB | exact Hraises | exact Husage].
Defined.

(** The pool invariant after construction from ["keyA,keyB"] and after a
    [chat] call. *)
Lemma pool_invariant_witness :
  index_ok Sample.fresh_AB
  /\ index_ok (state_of (chat (P:=Sample.answering) (py "hello") None
                           Sample.fresh_AB))
  /\ api_keys (state_of (chat (P:=Sample.answering) (py "hello") None
                           Sample.fresh_AB))
     = api_keys Sample.fresh_AB.
Proof.
  pose proof (pool_invariant (P:=Sample.answering))
    as (Hinit & Hchat & _).
  assert (__init__ (P:=Sample.answering) (Some (py "keyA,keyB"))
          = (Return Sample.fresh_AB, [InitClient (client Sample.fresh_AB)])) as Hbuilt
    by (vm_compute; reflexivity).
  pose proof (Hinit _ _ _ Hbuilt) as Hi.
  destruct (Hchat (py "hello") None Sample.fresh_AB Hi) as [Hi' Hkeys].
  by split_and!.
Defined.

(** Construction from the setting [","], with a constructor that raises
    for an empty key: the parsed pool is [["", ""]] and construction raises
    the failure of the constructor instead of returning. *)
Lemma init_comma_setting_raises :
  py "," <> []
  /\ (__init__ (P:=Sample.answering) (Some (py ","))).1
     = Raise (ProviderError (py "GroqError: the api_key client option must be set"))
  /\ forall self, (__init__ (P:=Sample.answering) (Some (py ","))).1 <> Return self.
Proof.
  split_and!; [discriminate | reflexivity |].
  intros self H. vm_compute in H. discriminate.
Qed.

(** Construction from [" keyA , keyB,"] : three keys, the last one empty. *)
Lemma construction_raises_iff_absent_or_empty_witness :
  py " keyA , keyB," <> []
  /\ exists self,
       (__init__ (P:=Sample.answering) (Some (py " keyA , keyB,"))).1 = Return self
       /\ api_keys self = [Sample.keyA; Sample.keyB; []].
Proof.
  assert (py " keyA , keyB," <> []) as Hraw by discriminate.
  split; [exact Hraw|].
  destruct (proj1 (proj2 (construction_raises_iff_absent_or_empty
                            (P:=Sample.answering)
                            (Some (py " keyA , keyB,")))) _ eq_refl Hraw)
    as (pieces & first & _ & _ & Hhead & Hcase).
  assert (__init__ (P:=Sample.answering) (Some (py " keyA , keyB,"))
          = (Return (mkGroqModel [Sample.keyA; Sample.keyB; []] 0 Sample.llama 8192
                       (mkChatGroq Sample.llama Sample.keyA)
                       (zero_usage [Sample.keyA; Sample.keyB; []])),
             [InitClient (mkChatGroq Sample.llama Sample.keyA)])) as Hrun
    by (vm_compute; reflexivity).
  rewrite Hrun in *. cbn [fst] in *.
  destruct (init_error (py "llama-3.1-70b-versatile") first) as [e|];
    [discriminate|].
  destruct Hcase as (self & Hinit & _). exists self. split; [exact Hinit|].
  by injection Hinit as <-.
Defined.

(** ** The further properties on the sample data *)

(** On the low pool a provider whose requests fail gives
    [ProviderError], an answering one the answer. *)
Lemma chat_raises_only_provider_errors_witness :
  index_ok Sample.low_AB /\ tracked Sample.low_AB
  /\ accepts_pool (P:=Sample.answering) Sample.low_AB
  /\ outcome_of (chat (P:=Sample.failing) (py "hello") None Sample.low_AB)
     = Raise (ProviderError (py "rate limit exceeded"))
  /\ outcome_of (chat (P:=Sample.answering) (py "hello") None Sample.low_AB)
     = Return (py "Gravity pulls masses together.").
Proof.
  split_and!; [exact index_ok_low_AB | exact tracked_low_AB
              | exact accepts_pool_low_AB | |].
  - apply (chat_raises_only_provider_errors (P:=Sample.failing) (py "hello") None
             Sample.low_AB index_ok_low_AB tracked_low_AB).
    repeat constructor.
  - apply (chat_raises_only_provider_errors (P:=Sample.answering) (py "hello") None
             Sample.low_AB index_ok_low_AB tracked_low_AB).
    exact accepts_pool_low_AB.
Defined.

(** [chat] on an object whose counters were all deleted, on one whose
    pool is empty, and on one that has a counter for [keyA] only. *)
Lemma chat_fails_on_missing_key_witness :
  current_key (set_usage_tracker ∅ Sample.fresh_AB) = Some Sample.keyA
  /\ usage_tracker (set_usage_tracker ∅ Sample.fresh_AB) !! Sample.keyA = None
  /\ outcome_of (chat (P:=Sample.answering) (py "hello") None
                   (set_usage_tracker ∅ Sample.fresh_AB))
     = Raise (KeyError Sample.keyA)
  /\ current_key (mkGroqModel [] 0 Sample.llama 8192
                    (mkChatGroq Sample.llama Sample.keyA) ∅) = None
  /\ outcome_of (chat (P:=Sample.answering) (py "hello") None
                   (mkGroqModel [] 0 Sample.llama 8192
                      (mkChatGroq Sample.llama Sample.keyA) ∅))
     = Raise IndexError
  /\ outcome_of (chat (P:=Sample.answering) (py "hello") None
                   (set_usage_tracker (<[Sample.keyA := 999000]> ∅) Sample.fresh_AB))
     = Raise (KeyError Sample.keyB).
Proof.
  assert (usage_tracker (set_usage_tracker ∅ Sample.fresh_AB) !! Sample.keyA = None)
    as Hnone by (vm_compute; reflexivity).
  split_and!; [reflexivity | exact Hnone | | reflexivity | |].
  - rewrite (proj1 (proj2 (chat_fails_on_missing_key (P:=Sample.answering)
                             (py "hello") None
                             (set_usage_tracker ∅ Sample.fresh_AB)))
               Sample.keyA eq_refl Hnone).
    reflexivity.
  - rewrite (proj1 (chat_fails_on_missing_key (P:=Sample.answering) (py "hello") None
                      (mkGroqModel [] 0 Sample.llama 8192
                         (mkChatGroq Sample.llama Sample.keyA) ∅))
               eq_refl).
    reflexivity.
  - assert (_check_and_switch_key (P:=Sample.answering)
              (set_usage_tracker (<[Sample.keyA := 999000]> ∅) Sample.fresh_AB)
            = (Return tt,
               set_client (mkChatGroq Sample.llama Sample.keyB)
                 (set_current_index 1
                    (set_usage_tracker (<[Sample.keyA := 999000]> ∅)
                       Sample.fresh_AB)),
               [Print (QuotaLowLine Sample.keyA 1000);
                InitClient (mkChatGroq Sample.llama Sample.keyB);
                Print (SwitchedLine Sample.keyA Sample.keyB)])) as Hcheck
      by (vm_compute; reflexivity).
    assert (usage_tracker
              (set_usage_tracker (<[Sample.keyA := 999000]> ∅) Sample.fresh_AB)
            !! Sample.keyB = None) as Hmiss by (vm_compute; reflexivity).
    rewrite (proj2 (proj2 (chat_fails_on_missing_key (P:=Sample.answering)
                             (py "hello") None
                             (set_usage_tracker (<[Sample.keyA := 999000]> ∅)
                                Sample.fresh_AB)))
               _ _ (mkAIMessage (py "Gravity pulls masses together.")) Sample.keyB
               Hcheck eq_refl eq_refl Hmiss).
    reflexivity.
Defined.

(** The counter of [keyA], which [chat] charges, does not go down. *)
Lemma chat_usage_monotone_witness :
  0 <= get_num_tokens_from_messages (Provider := Sample.answering)
         (client Sample.fresh_AB) (build_messages (py "hello") None)
  /\ usage_tracker Sample.fresh_AB !! Sample.keyA = Some 0
  /\ exists new,
       usage_tracker (state_of (chat (P:=Sample.answering) (py "hello") None
                                  Sample.fresh_AB)) !! Sample.keyA = Some new
       /\ 0 <= new.
Proof.
  assert (0 <= get_num_tokens_from_messages (Provider := Sample.answering)
                 (client Sample.fresh_AB) (build_messages (py "hello") None)) as Hcount
    by (vm_compute; discriminate).
  assert (usage_tracker Sample.fresh_AB !! Sample.keyA = Some 0) as Hold
    by (vm_compute; reflexivity).
  split_and!; [exact Hcount | exact Hold |].
  exact (chat_usage_monotone (P:=Sample.answering) (py "hello") None
           Sample.fresh_AB Sample.keyA 0 Hcount Hold).
Defined.

Lemma reachable_client_of_pool_key_witness :
  reachable (E:=str) Sample.fresh_AB
  /\ (exists key,
        key ∈ api_keys Sample.fresh_AB
        /\ client Sample.fresh_AB = mkChatGroq (py "llama-3.1-70b-versatile") key)
  /\ index_ok Sample.fresh_AB
  /\ outcome_of (_switch_key (P:=Sample.answering) Sample.fresh_AB) = Return tt
  /\ client_bound (state_of (_switch_key (P:=Sample.answering) Sample.fresh_AB)).
Proof.
  assert (outcome_of (_switch_key (P:=Sample.answering) Sample.fresh_AB) = Return tt)
    as Hret by (vm_compute; reflexivity).
  destruct (reachable_client_of_pool_key (P:=Sample.answering) Sample.fresh_AB
              reachable_fresh_AB) as (Hclient & Hswitch & _).
  split_and!; [exact reachable_fresh_AB | exact Hclient | exact index_ok_fresh_AB
              | exact Hret | exact (Hswitch index_ok_fresh_AB Hret)].
Defined.

Lemma reachable_exact_counters_witness :
  reachable (E:=str) Sample.fresh_AB /\ exact_counters Sample.fresh_AB.
Proof.
  split; [exact reachable_fresh_AB|].
  exact (reachable_exact_counters Sample.fresh_AB reachable_fresh_AB).
Defined.

(** A pool of one exhausted key: the cursor stays at [(0 + 1) mod 1 = 0]
    and the key is still low after the call. *)
Lemma chat_exhausted_pool_rotates_witness :
  index_ok Sample.low_single /\ all_low Sample.low_single
  /\ current_index (state_of (chat (P:=Sample.answering) (py "hello") None
                                Sample.low_single)) = 0
  /\ all_low (state_of (chat (P:=Sample.answering) (py "hello") None
                          Sample.low_single)).
Proof.
  assert (index_ok Sample.low_single) as Hi by (unfold index_ok; simpl; lia).
  destruct (chat_exhausted_pool_rotates (P:=Sample.answering) (py "hello") None
              Sample.low_single Hi all_low_low_single) as (Hidx & _ & Hlow).
  split_and!; [exact Hi | exact all_low_low_single | exact Hidx |].
  apply Hlow. vm_compute. discriminate.
Defined.

Lemma chat_prints_key_prefixes_witness :
  index_ok Sample.low_AB /\ tracked Sample.low_AB
  /\ Forall (fun f => (length f <= 8)%nat
                      /\ exists k, k ∈ api_keys Sample.low_AB /\ f = take 8 k)
       (printed_fragments
          (trace_of (chat (P:=Sample.answering) (py "hello") None Sample.low_AB))).
Proof.
  split_and!; [exact index_ok_low_AB | exact tracked_low_AB |].
  exact (chat_prints_key_prefixes (P:=Sample.answering) (py "hello") None
           Sample.low_AB index_ok_low_AB tracked_low_AB).
Defined.

Lemma rotation_reaches_every_key_witness :
  index_ok Sample.fresh_AB /\ 0 <= 1 < Z.of_nat (length (api_keys Sample.fresh_AB))
  /\ exists k,
       (k < length (api_keys Sample.fresh_AB))%nat
       /\ current_index (after k (_switch_key (P:=Sample.answering)) Sample.fresh_AB)
          = 1.
Proof.
  assert (0 <= 1 < Z.of_nat (length (api_keys Sample.fresh_AB))) as Hj
    by (simpl; lia).
  split; [exact index_ok_fresh_AB|]. split; [exact Hj|].
  destruct (rotation_reaches_every_key (P:=Sample.answering) Sample.fresh_AB 1
              index_ok_fresh_AB Hj) as (k & Hk & Hidx & _).
  by exists k.
Defined.

(** On the pool [keyA, keyB] with [keyA] low and [keyB] unused, one check
    moves to [keyB] and the next one stays there. *)
Lemma check_settles_on_first_ok_key_witness :
  index_ok Sample.low_AB
  /\ accepts_pool (P:=Sample.answering) Sample.low_AB
  /\ low_at Sample.low_AB 0
  /\ ok_at Sample.low_AB 1
  /\ current_index (state_of (times 1 (_check_and_switch_key (P:=Sample.answering))
                                Sample.low_AB)) = 1
  /\ _check_and_switch_key (P:=Sample.answering)
       (state_of (times 1 (_check_and_switch_key (P:=Sample.answering))
                    Sample.low_AB))
     = (Return tt,
        state_of (times 1 (_check_and_switch_key (P:=Sample.answering))
                    Sample.low_AB), []).
Proof.
  assert (low_at Sample.low_AB 0) as Hlow.
  { exists Sample.keyA, 999000. split_and!; [reflexivity | vm_compute; reflexivity | lia]. }
  assert (ok_at Sample.low_AB 1) as Hok.
  { exists Sample.keyB, 0. split_and!; [reflexivity | vm_compute; reflexivity | lia]. }
  destruct (check_settles_on_first_ok_key (P:=Sample.answering) 1 Sample.low_AB
              index_ok_low_AB accepts_pool_low_AB)
    as (_ & Hidx & Hstay).
  - intros d Hd. assert (d = 0%nat) as -> by lia. exact Hlow.
  - exact Hok.
  - split_and!; [exact index_ok_low_AB | exact accepts_pool_low_AB | exact Hlow
                | exact Hok | exact Hidx | exact Hstay].
Defined.

Lemma init_pool_of_joined_keys_witness :
  head [Sample.keyA; Sample.keyB] = Some Sample.keyA
  /\ [Sample.keyA; Sample.keyB] <> [[]]
  /\ init_error (Provider:=Sample.answering) (py "llama-3.1-70b-versatile")
       Sample.keyA = None
  /\ Forall (fun k => (comma ∉ k) /\ strip k = k) [Sample.keyA; Sample.keyB]
  /\ exists self,
       __init__ (P:=Sample.answering) (Some (join comma [Sample.keyA; Sample.keyB]))
       = (Return self, [InitClient (client self)])
       /\ api_keys self = [Sample.keyA; Sample.keyB].
Proof.
  assert ([Sample.keyA; Sample.keyB] <> [[]]) as Hone by discriminate.
  assert (Forall (fun k => (comma ∉ k) /\ strip k = k) [Sample.keyA; Sample.keyB])
    as Hclean.
  { repeat (apply Forall_cons; split; [split; [|reflexivity]|]); [| |constructor].
    - intros Hin. vm_compute in Hin. by repeat (apply elem_of_cons in Hin as [?|Hin];
        [discriminate|]); apply elem_of_nil in Hin.
    - intros Hin. vm_compute in Hin. by repeat (apply elem_of_cons in Hin as [?|Hin];
        [discriminate|]); apply elem_of_nil in Hin. }
  split_and!; [reflexivity | exact Hone | reflexivity | exact Hclean |].
  exact (init_pool_of_joined_keys (P:=Sample.answering) [Sample.keyA; Sample.keyB]
           Sample.keyA eq_refl Hone eq_refl Hclean).
Defined.

Lemma init_keys_clean_witness :
  py " keyA , keyB," <> []
  /\ length (strip <$> split comma (py " keyA , keyB,")) = 3%nat
  /\ init_error (Provider:=Sample.answering) (py "llama-3.1-70b-versatile")
       Sample.keyA = None
  /\ exists self,
       __init__ (P:=Sample.answering) (Some (py " keyA , keyB,"))
       = (Return self, [InitClient (client self)])
       /\ api_keys self = strip <$> split comma (py " keyA , keyB,").
Proof.
  assert (py " keyA , keyB," <> []) as Hraw by discriminate.
  destruct (init_keys_clean (P:=Sample.answering) (py " keyA , keyB,") Hraw)
    as (Hlen & _ & _ & Hreturns).
  split_and!; [exact Hraw | | reflexivity |].
  - rewrite Hlen. vm_compute. reflexivity.
  - exact (Hreturns Sample.keyA eq_refl eq_refl).
Defined.
